(** * The loop:// serial port of pySerial (serial/urlhandler/protocol_loop.py)

    A shallow embedding of class [Serial] of [protocol_loop.py]: a software
    loop-back port whose [write] puts one-byte units on a bounded
    [queue.Queue] and whose [read] takes them off again.

    Methods are computations in a state-and-exception monad over the
    instance attributes ([Serial]) and the outside world ([World]: the wall
    clock read by [time.time()], and the trace of sleeps, timed waits and
    calls into the [logging] library).  A computation returns, raises a
    Python exception, or blocks for ever (a [queue.Queue] operation without
    time-out that no other thread completes). *)

From Stdlib Require Import String Ascii.
From Stdlib Require Import ZArith List Bool Lia Floats Uint63.
Import ListNotations.

Local Open Scope Z_scope.

(* 0.3 is read as the nearest binary64 value, as Python reads it. *)
Set Warnings "-inexact-float".

(** ** Python values *)

Definition bytes := list Byte.byte.

(** The objects found on the queue: [None], or a [bytes] object. *)
Inductive pyobj : Type :=
| PyNone
| PyBytes (b : bytes).

Definition is_bytes (x : pyobj) : bool :=
  match x with PyBytes _ => true | PyNone => false end.

(** [float(z)] for an [int] below 2^63 in absolute value. *)
Definition float_of_int (z : Z) : float :=
  if z <? 0 then PrimFloat.opp (PrimFloat.of_uint63 (Uint63.of_Z (- z)))
  else PrimFloat.of_uint63 (Uint63.of_Z z).

(** Truth value of a float: every float but zero is true. *)
Definition float_truthy (x : float) : bool := negb (PrimFloat.eqb x 0%float).

(** ** Exceptions *)

Inductive ValueErrorMsg : Type :=
| unknown_option (option : string)   (* 'unknown option: %r' % (option,) *)
| invalid_baudrate (baudrate : Z)    (* "invalid baudrate: %r" % (self._baudrate) *)
| negative_timeout                   (* queue: 'timeout' must be a non-negative number *)
| negative_sleep.                    (* time.sleep: sleep length must be non-negative *)

Inductive SerialExceptionMsg : Type :=
| port_already_open                  (* "Port is already open." *)
| port_not_configured                (* "Port must be configured before it can be used." *)
| url_not_loop (scheme : string)     (* 'expected a string in the form ...: not starting with loop:// (%r)' *)
| url_bad_option (e : ValueErrorMsg). (* 'expected a string in the form ...: %s' % e *)

Inductive exn : Type :=
| SerialException (m : SerialExceptionMsg)
| portNotOpenError
| writeTimeoutError
| ValueError (m : ValueErrorMsg)
| KeyError (key : string)
| IndexError
| TypeError
| AttributeError (name : string)
| ZeroDivisionError
| queue_Empty
| queue_Full
| OverflowError.

(** ** The standard library's [queue.Queue] *)

Module Queue.

Record t : Type := mk { maxsize : Z; items : list pyobj }.

(** [queue.Queue(maxsize)] *)
Definition new (maxsize : Z) : t := mk maxsize [].

Definition qsize (q : t) : Z := Z.of_nat (length (items q)).

Definition push (q : t) (x : pyobj) : t := mk (maxsize q) (items q ++ [x]).

(** [threading.TIMEOUT_MAX]: the longest time-out that the blocking calls
    of [threading] are documented to take. *)
Definition TIMEOUT_MAX : float := 9223372036.0.

(** The longest wait that the lock still converts to its count of
    nanoseconds (2**63 of them). *)
Definition LOCK_WAIT_MAX : float := 9223372036.854775.

(** What waiting on the queue's condition for a time-out that is not
    negative comes to, when nothing ends the wait: the time-out passes; or
    the lock refuses it as too large (OverflowError); or, the time-out being
    no number, [Condition.wait] returns at once each time and the loop
    around it never ends. *)
Inductive wait_result : Type :=
| WaitPasses
| WaitTooLarge
| WaitSpins.

Definition wait (tmo : float) : wait_result :=
  if PrimFloat.leb tmo TIMEOUT_MAX || PrimFloat.leb tmo LOCK_WAIT_MAX then WaitPasses
  else if PrimFloat.ltb LOCK_WAIT_MAX tmo then WaitTooLarge
  else WaitSpins.

Inductive put_result : Type :=
| Put (q' : t)
| PutFull (waited : float)   (* raises Full once the time-out has passed *)
| PutBadTimeout              (* raises ValueError *)
| PutBlocks                  (* waits for a consumer, or spins *)
| PutOverflow.               (* raises OverflowError *)

(** [q.put(x, timeout=timeout)] with no other thread running; a queue whose
    [maxsize] is zero or negative is unbounded. *)
Definition put (q : t) (x : pyobj) (timeout : option float) : put_result :=
  if 0 <? maxsize q then
    match timeout with
    | None => if maxsize q <=? qsize q then PutBlocks else Put (push q x)
    | Some tmo =>
        if PrimFloat.ltb tmo 0 then PutBadTimeout
        else if maxsize q <=? qsize q then
          match wait tmo with
          | WaitPasses => PutFull tmo
          | WaitTooLarge => PutOverflow
          | WaitSpins => PutBlocks
          end
        else Put (push q x)
    end
  else Put (push q x).

Inductive get_result : Type :=
| Got (x : pyobj) (q' : t)
| GetEmpty (waited : float)  (* raises Empty once the time-out has passed *)
| GetBadTimeout              (* raises ValueError *)
| GetBlocks                  (* waits for a producer, or spins *)
| GetOverflow.               (* raises OverflowError *)

(** [q.get(timeout=timeout)] with no other thread running. *)
Definition get (q : t) (timeout : option float) : get_result :=
  match timeout with
  | None =>
      match items q with
      | [] => GetBlocks
      | x :: rest => Got x (mk (maxsize q) rest)
      end
  | Some tmo =>
      if PrimFloat.ltb tmo 0 then GetBadTimeout
      else match items q with
           | [] =>
               match wait tmo with
               | WaitPasses => GetEmpty tmo
               | WaitTooLarge => GetOverflow
               | WaitSpins => GetBlocks
               end
           | x :: rest => Got x (mk (maxsize q) rest)
           end
  end.

(** [q.get_nowait()]: [None] stands for raising Empty. *)
Definition get_nowait (q : t) : option (pyobj * t) :=
  match items q with
  | [] => None
  | x :: rest => Some (x, mk (maxsize q) rest)
  end.

End Queue.

(** ** The [logging] library, as far as the port calls it *)

Definition Logger := string.   (* a logger, known by its name *)

(** logging.DEBUG, INFO, WARNING, ERROR *)
Definition DEBUG : Z := 10.
Definition INFO : Z := 20.
Definition WARNING : Z := 30.
Definition ERROR : Z := 40.

(** map log level names to constants. used in fromURL() *)
Definition LOGGER_LEVELS : list (string * Z) :=
  [ ("debug", DEBUG); ("info", INFO); ("warning", WARNING); ("error", ERROR) ]%string.

(** [d[key]] on a dict held as an association list. *)
Fixpoint dict_get {V : Type} (d : list (string * V)) (key : string) : option V :=
  match d with
  | [] => None
  | (k, v) :: rest => if String.eqb k key then Some v else dict_get rest key
  end.

(** The messages handed to the logger, one constructor for each format string. *)
Inductive LogMsg : Type :=
| log_enabled_logging                (* 'enabled logging' *)
| log_reconfigurePort                (* '_reconfigurePort()' *)
| log_inWaiting (n : Z)              (* 'inWaiting() -> %d' *)
| log_flushInput                     (* 'flushInput()' *)
| log_flushOutput                    (* 'flushOutput()' *)
| log_setBreak (b : bool)            (* 'setBreak(%r)' *)
| log_setRTS (b : bool)              (* 'setRTS(%r) -> state of CTS' *)
| log_setDTR (b : bool)              (* 'setDTR(%r) -> state of DSR' *)
| log_getCTS (b : bool)              (* 'getCTS() -> state of RTS (%r)' *)
| log_getDSR (b : bool)              (* 'getDSR() -> state of DTR (%r)' *)
| log_getRI                          (* 'returning dummy for getRI()' *)
| log_getCD.                         (* 'returning dummy for getCD()' *)

(** ** The world outside the object *)

Inductive event : Type :=
| Sleep (seconds : float)                        (* time.sleep *)
| Wait (seconds : float)                         (* a queue operation waited out its time-out *)
| basicConfig                                    (* logging.basicConfig() *)
| setLevel (lg : Logger) (level : Z)             (* logger.setLevel *)
| LogCall (lg : Logger) (level : Z) (m : LogMsg). (* logger.debug / logger.info *)

Record World : Type := mkWorld {
  clock : nat -> float;   (* the successive readings of time.time() *)
  ticks : nat;            (* how many readings were taken *)
  trace : list event      (* what happened so far, oldest first *)
}.

Definition emit (e : event) (w : World) : World :=
  mkWorld (clock w) (ticks w) (trace w ++ [e]).

Definition tick (w : World) : World :=
  mkWorld (clock w) (S (ticks w)) (trace w).

(** ** Instance attributes

    [_isOpen] to [dsrdtr] are the attributes of the base class [SerialBase]
    that this file reads ([dsrdtr] and [port] through their properties); the
    time-outs are [None] or a number of seconds, held as a float;
    [buffer_size] is set by [__init__]; [logger] and [queue] do not exist
    before the first [open()] ([None] here), and [logger] may then hold
    Python's [None] ([Some None]). *)

Record Serial : Type := mkSerial {
  _isOpen : bool;
  _port : option string;
  _baudrate : Z;
  _timeout : option float;
  _writeTimeout : option float;
  _rts_state : bool;
  _dtr_state : bool;
  _break_state : bool;
  _rtscts : bool;
  dsrdtr : bool;
  buffer_size : Z;
  logger : option (option Logger);
  queue : option Queue.t
}.

Definition set_isOpen (b : bool) (s : Serial) : Serial :=
  mkSerial b (_port s) (_baudrate s) (_timeout s) (_writeTimeout s)
    (_rts_state s) (_dtr_state s) (_break_state s) (_rtscts s) (dsrdtr s)
    (buffer_size s) (logger s) (queue s).

Definition set_logger (lg : option Logger) (s : Serial) : Serial :=
  mkSerial (_isOpen s) (_port s) (_baudrate s) (_timeout s) (_writeTimeout s)
    (_rts_state s) (_dtr_state s) (_break_state s) (_rtscts s) (dsrdtr s)
    (buffer_size s) (Some lg) (queue s).

Definition set_queue (q : Queue.t) (s : Serial) : Serial :=
  mkSerial (_isOpen s) (_port s) (_baudrate s) (_timeout s) (_writeTimeout s)
    (_rts_state s) (_dtr_state s) (_break_state s) (_rtscts s) (dsrdtr s)
    (buffer_size s) (logger s) (Some q).

(** ** Computations *)

Inductive Outcome (A : Type) : Type :=
| Returns (a : A)
| Raises (e : exn)
| Blocks.

Arguments Returns {A} a.
Arguments Raises {A} e.
Arguments Blocks {A}.

Record Result (A : Type) : Type := mkResult {
  outcome : Outcome A;
  self : Serial;
  world : World
}.

Arguments mkResult {A} _ _ _.
Arguments outcome {A} _.
Arguments self {A} _.
Arguments world {A} _.

Definition M (A : Type) : Type := Serial -> World -> Result A.

Definition ret {A : Type} (a : A) : M A :=
  fun s w => mkResult (Returns a) s w.

Definition raise {A : Type} (e : exn) : M A :=
  fun s w => mkResult (Raises e) s w.

Definition block {A : Type} : M A :=
  fun s w => mkResult Blocks s w.

Definition bind {A B : Type} (m : M A) (k : A -> M B) : M B :=
  fun s w =>
    let r := m s w in
    match outcome r with
    | Returns a => k a (self r) (world r)
    | Raises e => mkResult (Raises e) (self r) (world r)
    | Blocks => mkResult Blocks (self r) (world r)
    end.

Notation "x <- c1 ;; c2" := (bind c1 (fun x => c2))
  (at level 61, c1 at next level, right associativity).
Notation "c1 ;; c2" := (bind c1 (fun _ => c2))
  (at level 61, right associativity).

(** [try: m  except <handled>: ...]: [handler e] is the clause that catches
    [e], if there is one. *)
Definition try_except {A : Type} (m : M A) (handler : exn -> option (M A)) : M A :=
  fun s w =>
    let r := m s w in
    match outcome r with
    | Raises e =>
        match handler e with
        | Some h => h (self r) (world r)
        | None => r
        end
    | _ => r
    end.

Definition gets {A : Type} (f : Serial -> A) : M A :=
  fun s w => mkResult (Returns (f s)) s w.

Definition modify (f : Serial -> Serial) : M unit :=
  fun s w => mkResult (Returns tt) (f s) w.

Definition do_emit (e : event) : M unit :=
  fun s w => mkResult (Returns tt) s (emit e w).

(** [self.logger] and [self.queue]: reading an attribute that was never
    assigned raises AttributeError. *)
Definition self_logger : M (option Logger) :=
  fun s w =>
    match logger s with
    | Some lg => mkResult (Returns lg) s w
    | None => mkResult (Raises (AttributeError "logger"%string)) s w
    end.

Definition self_queue : M Queue.t :=
  fun s w =>
    match queue s with
    | Some q => mkResult (Returns q) s w
    | None => mkResult (Raises (AttributeError "queue"%string)) s w
    end.

(** [time.time()] *)
Definition time_time : M float :=
  fun s w => mkResult (Returns (clock w (ticks w))) s (tick w).

(** [time.sleep(seconds)] *)
Definition time_sleep (seconds : float) : M unit :=
  if PrimFloat.ltb seconds 0 then raise (ValueError negative_sleep)
  else do_emit (Sleep seconds).

(** [self.queue.put(x, timeout=timeout)] *)
Definition queue_put (x : pyobj) (timeout : option float) : M unit :=
  q <- self_queue ;;
  match Queue.put q x timeout with
  | Queue.Put q' => modify (set_queue q')
  | Queue.PutFull waited => do_emit (Wait waited) ;; raise queue_Full
  | Queue.PutBadTimeout => raise (ValueError negative_timeout)
  | Queue.PutBlocks => block
  | Queue.PutOverflow => raise OverflowError
  end.

(** [self.queue.get(timeout=timeout)] *)
Definition queue_get (timeout : option float) : M pyobj :=
  q <- self_queue ;;
  match Queue.get q timeout with
  | Queue.Got x q' => modify (set_queue q') ;; ret x
  | Queue.GetEmpty waited => do_emit (Wait waited) ;; raise queue_Empty
  | Queue.GetBadTimeout => raise (ValueError negative_timeout)
  | Queue.GetBlocks => block
  | Queue.GetOverflow => raise OverflowError
  end.

(** [if not self._isOpen: raise portNotOpenError] *)
Definition require_open : M unit :=
  isOpen <- gets _isOpen ;;
  if negb isOpen then raise portNotOpenError else ret tt.

(** [if self.logger: self.logger.<level>(m)] *)
Definition log_if_logger (level : Z) (m : LogMsg) : M unit :=
  lg <- self_logger ;;
  match lg with
  | Some l => do_emit (LogCall l level m)
  | None => ret tt
  end.

(** ** The standard library's [urllib.parse]

    [fromURL] calls [urlsplit] and [parse_qs]; the port is modelled over any
    implementation of the two.  [parse_qs] returns a dict, held here as an
    association list in iteration order. *)

Record SplitResult : Type := mkSplit {
  scheme : string;
  netloc : string;
  path : string;
  query : string;
  fragment : string
}.

Class UrlLib : Type := {
  urlsplit : string -> SplitResult;
  parse_qs : string -> bool -> list (string * list string)
}.

(** An executable [urllib.parse] for plain addresses: what CPython computes
    for an address without percent escapes. *)
Module Urllib.

(** [s.split(c, 1)]: the text before the first [c], and the text after it
    when [c] occurs. *)
Fixpoint partition (c : ascii) (s : string) : string * option string :=
  match s with
  | EmptyString => (EmptyString, None)
  | String a rest =>
      if Ascii.eqb a c then (EmptyString, Some rest)
      else let (h, t) := partition c rest in (String a h, t)
  end.

(** [s.split(c)] *)
Fixpoint split (c : ascii) (s : string) : list string :=
  match s with
  | EmptyString => [EmptyString]
  | String a rest =>
      if Ascii.eqb a c then EmptyString :: split c rest
      else match split c rest with
           | [] => [String a EmptyString]
           | h :: t => String a h :: t
           end
  end.

Definition in_range (lo hi : ascii) (a : ascii) : bool :=
  (nat_of_ascii lo <=? nat_of_ascii a)%nat && (nat_of_ascii a <=? nat_of_ascii hi)%nat.

Definition is_alpha (a : ascii) : bool :=
  in_range "a" "z" a || in_range "A" "Z" a.

(** letters, digits and [+-.] *)
Definition scheme_char (a : ascii) : bool :=
  is_alpha a || in_range "0" "9" a
  || Ascii.eqb a "+" || Ascii.eqb a "-" || Ascii.eqb a ".".

Definition lower_char (a : ascii) : ascii :=
  if in_range "A" "Z" a then ascii_of_nat (nat_of_ascii a + 32) else a.

Fixpoint lower (s : string) : string :=
  match s with
  | EmptyString => EmptyString
  | String a rest => String (lower_char a) (lower rest)
  end.

Fixpoint all_chars (p : ascii -> bool) (s : string) : bool :=
  match s with
  | EmptyString => true
  | String a rest => p a && all_chars p rest
  end.

Definition split_scheme (url : string) : string * string :=
  match partition ":" url with
  | (String a pre, Some rest) =>
      if is_alpha a && all_chars scheme_char pre
      then (lower (String a pre), rest)
      else (EmptyString, url)
  | _ => (EmptyString, url)
  end.

(** The network location runs up to the first of [/?#]. *)
Fixpoint take_netloc (s : string) : string * string :=
  match s with
  | EmptyString => (EmptyString, EmptyString)
  | String a rest =>
      if Ascii.eqb a "/" || Ascii.eqb a "?" || Ascii.eqb a "#"
      then (EmptyString, s)
      else let (h, t) := take_netloc rest in (String a h, t)
  end.

Definition split_netloc (url : string) : string * string :=
  match url with
  | String "/" (String "/" rest) => take_netloc rest
  | _ => (EmptyString, url)
  end.

Definition or_empty (o : option string) : string :=
  match o with Some s => s | None => EmptyString end.

Definition urlsplit (url : string) : SplitResult :=
  let (sch, url1) := split_scheme url in
  let (loc, url2) := split_netloc url1 in
  let (url3, frag) := partition "#" url2 in
  let (url4, qry) := partition "?" url3 in
  mkSplit sch loc url4 (or_empty qry) (or_empty frag).

Definition plus_to_space (s : string) : string :=
  (fix go (s : string) : string :=
     match s with
     | EmptyString => EmptyString
     | String a rest => String (if Ascii.eqb a "+" then " "%char else a) (go rest)
     end) s.

Definition nonempty (s : string) : bool :=
  match s with EmptyString => false | String _ _ => true end.

(** [parse_qsl(qs, keep_blank_values)] *)
Definition parse_qsl (qs : string) (keep_blank_values : bool) : list (string * string) :=
  flat_map
    (fun name_value =>
       if nonempty name_value then
         match partition "=" name_value with
         | (name, Some value) =>
             if nonempty value || keep_blank_values
             then [(plus_to_space name, plus_to_space value)] else []
         | (name, None) =>
             if keep_blank_values then [(plus_to_space name, EmptyString)] else []
         end
       else [])
    (split "&" qs).

(** [parsed_result[name].append(value)], or a new entry at the end. *)
Fixpoint dict_append (d : list (string * list string)) (name value : string)
  : list (string * list string) :=
  match d with
  | [] => [(name, [value])]
  | (k, vs) :: rest =>
      if String.eqb k name then (k, vs ++ [value]) :: rest
      else (k, vs) :: dict_append rest name value
  end.

Definition parse_qs (qs : string) (keep_blank_values : bool)
  : list (string * list string) :=
  fold_left (fun d nv => dict_append d (fst nv) (snd nv))
            (parse_qsl qs keep_blank_values) [].

End Urllib.

#[export] Instance plain_urllib : UrlLib :=
  {| urlsplit := Urllib.urlsplit; parse_qs := Urllib.parse_qs |}.

(** ** class Serial(SerialBase) *)

(** The standard baud rates of the class. *)
Definition BAUDRATES : list Z :=
  [50; 75; 110; 134; 150; 200; 300; 600; 1200; 1800; 2400; 4800;
   9600; 19200; 38400; 57600; 115200].

(** [values[0]] *)
Definition first_value (values : list string) : M string :=
  match values with
  | v :: _ => ret v
  | [] => raise IndexError
  end.

(** [LOGGER_LEVELS[name]] *)
Definition logger_level (name : string) : M Z :=
  match dict_get LOGGER_LEVELS name with
  | Some level => ret level
  | None => raise (KeyError name)
  end.

(** The body of [for option, values in ... .items()] in [fromURL]. *)
Fixpoint fromURL_options (options : list (string * list string)) : M unit :=
  match options with
  | [] => ret tt
  | (option, values) :: rest =>
      (if String.eqb option "logging" then
         do_emit basicConfig ;;
         modify (set_logger (Some "pySerial.loop"%string)) ;;
         v <- first_value values ;;
         level <- logger_level v ;;
         do_emit (setLevel "pySerial.loop"%string level) ;;
         do_emit (LogCall "pySerial.loop"%string DEBUG log_enabled_logging)
       else raise (ValueError (unknown_option option))) ;;
      fromURL_options rest
  end.

(** extract host and port from an URL string *)
Definition fromURL {U : UrlLib} (url : string) : M unit :=
  let parts := urlsplit url in
  if negb (String.eqb (scheme parts) "loop") then
    raise (SerialException (url_not_loop (scheme parts)))
  else
    try_except (fromURL_options (parse_qs (query parts) true))
      (fun e =>
         match e with
         | ValueError m => Some (raise (SerialException (url_bad_option m)))
         | _ => None
         end).

(** Set communication parameters on opened port.  [_baudrate] is an integer
    by its type. *)
Definition _reconfigurePort : M unit :=
  baudrate <- gets _baudrate ;;
  if negb ((0 <? baudrate) && (baudrate <? 2 ^ 32)) then
    raise (ValueError (invalid_baudrate baudrate))
  else log_if_logger INFO log_reconfigurePort.

(** [try: while self.queue.qsize(): self.queue.get_nowait()
    except queue.Empty: pass], for at most [turns] turns of the loop. *)
Fixpoint drain_turns (turns : nat) (q : Queue.t) : Queue.t :=
  match turns with
  | O => q
  | S turns' =>
      if Queue.qsize q =? 0 then q
      else match Queue.get_nowait q with
           | Some (_, q') => drain_turns turns' q'
           | None => q
           end
  end.

(** The loop takes one item off at each turn: it is run for as many turns
    as there are items ([drain_stops] has it stop on its own test). *)
Definition drain (q : Queue.t) : Queue.t :=
  drain_turns (length (Queue.items q)) q.

(** Clear input buffer, discarding all that is in the buffer. *)
Definition reset_input_buffer : M unit :=
  require_open ;;
  log_if_logger INFO log_flushInput ;;
  q <- self_queue ;;
  modify (set_queue (drain q)).

(** Clear output buffer, aborting the current output and discarding all
    that is in the buffer. *)
Definition reset_output_buffer : M unit :=
  require_open ;;
  log_if_logger INFO log_flushOutput ;;
  q <- self_queue ;;
  modify (set_queue (drain q)).

(** Set break *)
Definition _update_break_state : M unit :=
  b <- gets _break_state ;; log_if_logger INFO (log_setBreak b).

(** Set terminal status line: Request To Send *)
Definition _update_rts_state : M unit :=
  b <- gets _rts_state ;; log_if_logger INFO (log_setRTS b).

(** Set terminal status line: Data Terminal Ready *)
Definition _update_dtr_state : M unit :=
  b <- gets _dtr_state ;; log_if_logger INFO (log_setDTR b).

(** Open port with current settings. *)
Definition open {U : UrlLib} : M unit :=
  isOpen <- gets _isOpen ;;
  if isOpen then raise (SerialException port_already_open)
  else
    modify (set_logger None) ;;
    size <- gets buffer_size ;;
    modify (set_queue (Queue.new size)) ;;
    port <- gets _port ;;
    match port with
    | None => raise (SerialException port_not_configured)
    | Some url =>
        fromURL url ;;
        _reconfigurePort ;;
        modify (set_isOpen true) ;;
        no_dsrdtr <- gets (fun s => negb (dsrdtr s)) ;;
        (if no_dsrdtr then _update_dtr_state else ret tt) ;;
        no_rtscts <- gets (fun s => negb (_rtscts s)) ;;
        (if no_rtscts then _update_rts_state else ret tt) ;;
        reset_input_buffer ;;
        reset_output_buffer
    end.

(** The first [def close] of the class body (line 79); [base_close] is
    [SerialBase.close], reached through [super()]. *)
Definition close_at_79 (base_close : M unit) : M unit :=
  queue_put PyNone None ;;
  base_close.

(** The second [def close] of the class body (line 94): Close port. *)
Definition close_at_94 : M unit :=
  isOpen <- gets _isOpen ;;
  if isOpen then
    modify (set_isOpen false) ;;
    (* in case of quick reconnects, give the server some time *)
    time_sleep 0.3
  else ret tt.

(** A class body runs top to bottom and the second [def close] rebinds the
    name: [Serial.close] is the function of line 94. *)
Definition close : M unit := close_at_94.

(** Return the number of characters currently in the input buffer. *)
Definition in_waiting : M Z :=
  require_open ;;
  lg <- self_logger ;;
  match lg with
  | Some l =>
      q <- self_queue ;;
      do_emit (LogCall l DEBUG (log_inWaiting (Queue.qsize q)))
  | None => ret tt
  end ;;
  q <- self_queue ;;
  ret (Queue.qsize q).

(** [data += x] on a bytearray: [x] must be a bytes object. *)
Definition bytearray_iadd (data : bytes) (x : pyobj) : M bytes :=
  match x with
  | PyBytes b => ret (data ++ b)
  | PyNone => raise TypeError
  end.

(** [timeout and time.time() > timeout] *)
Definition deadline_passed (timeout : option float) : M bool :=
  match timeout with
  | Some deadline =>
      if float_truthy deadline then
        now <- time_time ;;
        ret (PrimFloat.ltb deadline now)
      else ret false
  | None => ret false
  end.

(** One turn of the loop of [read], from the [try] on; [continue] is the
    rest of the loop run with one unit less to read. *)
Definition read_turn (continue : bytes -> M bytes) (timeout : option float)
    (data : bytes) : M bytes :=
  tmo <- gets _timeout ;;
  got <- try_except
           (x <- queue_get tmo ;;
            data' <- bytearray_iadd data x ;;
            ret (Some data'))
           (fun e =>
              match e with
              | queue_Empty => Some (ret None)
              | _ => None
              end) ;;
  match got with
  | None => ret data                       (* except queue.Empty: break *)
  | Some data' =>                          (* else: size -= 1 *)
      (* check for timeout now, after data has been read. *)
      late <- deadline_passed timeout ;;
      if late then ret data' else continue data'
  end.

(** [while size > 0 and self._isOpen: ...], [size] counting down. *)
Fixpoint read_loop (size : nat) (timeout : option float) (data : bytes) : M bytes :=
  match size with
  | O => ret data
  | S size' =>
      isOpen <- gets _isOpen ;;
      if isOpen then read_turn (read_loop size' timeout) timeout data
      else ret data
  end.

(** Read size bytes from the serial port. *)
Definition read (size : Z) : M bytes :=
  require_open ;;
  tmo <- gets _timeout ;;
  timeout <- match tmo with
             | Some t => now <- time_time ;; ret (Some (PrimFloat.add now t))
             | None => ret None
             end ;;
  read_loop (Z.to_nat size) timeout [].

(** Modelled from the spec: [to_bytes] of [serial/serialutil.py], which is
    not among the sources; the data written is a sequence of bytes and is
    taken as it is. *)
Definition to_bytes (data : bytes) : bytes := data.

(** Modelled from the spec: [iterbytes] of [serial/serialutil.py], which is
    not among the sources; the spec has each byte enqueued individually, one
    byte to a queue element. *)
Definition iterbytes (data : bytes) : list pyobj :=
  map (fun b => PyBytes [b]) data.

(** [10.0*len(data) / self._baudrate] *)
Definition time_used_to_send (data : bytes) (baudrate : Z) : float :=
  PrimFloat.div (PrimFloat.mul 10.0 (float_of_int (Z.of_nat (length data))))
                (float_of_int baudrate).

(** [for byte in iterbytes(data): self.queue.put(byte, timeout=self._writeTimeout)] *)
Fixpoint write_each (units : list pyobj) : M unit :=
  match units with
  | [] => ret tt
  | byte :: rest =>
      tmo <- gets _writeTimeout ;;
      queue_put byte tmo ;;
      write_each rest
  end.

(** Output the given string over the serial port. *)
Definition write (data : bytes) : M Z :=
  require_open ;;
  let data := to_bytes data in
  baudrate <- gets _baudrate ;;
  (* calculate aprox time that would be used to send the data *)
  used <- (if baudrate =? 0 then raise ZeroDivisionError
           else ret (time_used_to_send data baudrate)) ;;
  (* when a write timeout is configured check if we would be successful *)
  tmo <- gets _writeTimeout ;;
  match tmo with
  | Some t =>
      if PrimFloat.ltb t used then
        time_sleep t ;;
        raise writeTimeoutError
      else ret tt
  | None => ret tt
  end ;;
  write_each (iterbytes data) ;;
  ret (Z.of_nat (length data)).

(** Read terminal status line: Clear To Send *)
Definition cts : M bool :=
  require_open ;;
  b <- gets _rts_state ;;
  log_if_logger INFO (log_getCTS b) ;;
  gets _rts_state.

(** Read terminal status line: Data Set Ready *)
Definition dsr : M bool :=
  b <- gets _dtr_state ;;
  log_if_logger INFO (log_getDSR b) ;;
  gets _dtr_state.



(** ** Sample ports and worlds *)

(** A clock that advances by one second at each reading. *)
Definition sample_world : World :=
  mkWorld (fun n => float_of_int (Z.of_nat n)) 0 [].

(** A port as [__init__] leaves it: closed, never opened. *)
Definition new_port (port : option string) : Serial :=
  mkSerial false port 9600 None None false false false false false 4096 None None.

(** A port opened on [loop://] whose queue holds [items]. *)
Definition open_port (tmo wtmo : option float) (items : list pyobj) : Serial :=
  mkSerial true (Some "loop://"%string) 9600 tmo wtmo false false false false false
    4096 (Some None) (Some (Queue.mk 4096 items)).

(** The same port after [close()], with the DTR line as given. *)
Definition closed_port (dtr : bool) (items : list pyobj) : Serial :=
  mkSerial false (Some "loop://"%string) 9600 None None false dtr false false false
    4096 (Some None) (Some (Queue.mk 4096 items)).

(** Two one-byte units, as [write(b'ab')] queues them. *)
Definition two_units : list pyobj := [PyBytes [Byte.x61]; PyBytes [Byte.x62]].

(** An open port with a write time-out of a millisecond and one byte queued. *)
Definition hurried_port : Serial :=
  open_port None (Some 0.001%float) [PyBytes [Byte.x7a]].

(** The address [loop://?logging=<value>]. *)
Definition logging_address (value : string) : string :=
  ("loop://?logging=" ++ value)%string.

(** A character that means nothing special in a query string. *)
Definition plain_char (a : ascii) : bool :=
  negb (Ascii.eqb a "#") && negb (Ascii.eqb a "?") && negb (Ascii.eqb a "&")
  && negb (Ascii.eqb a "=") && negb (Ascii.eqb a "+").

(** An open port on [loop://] whose queue takes [capacity] items. *)
Definition small_port (capacity : Z) (tmo wtmo : option float) (items : list pyobj)
  : Serial :=
  mkSerial true (Some "loop://"%string) 9600 tmo wtmo false false false false false
    capacity (Some None) (Some (Queue.mk capacity items)).

(** [open()] from [self._reconfigurePort()] on, once the address is read. *)
Definition open_configured : M unit :=
  _reconfigurePort ;;
  modify (set_isOpen true) ;;
  no_dsrdtr <- gets (fun s => negb (dsrdtr s)) ;;
  (if no_dsrdtr then _update_dtr_state else ret tt) ;;
  no_rtscts <- gets (fun s => negb (_rtscts s)) ;;
  (if no_rtscts then _update_rts_state else ret tt) ;;
  reset_input_buffer ;;
  reset_output_buffer.

(** A world that differs from [w] by later entries of the trace only. *)
Definition later_world (w w' : World) : Prop :=
  exists events, w' = mkWorld (clock w) (ticks w) (trace w ++ events).

(** A closed port on [loop://] whose baud rate was never set to a rate. *)
Definition bad_baud_port : Serial :=
  mkSerial false (Some "loop://"%string) 0 None None false false false false false
    4096 None None.

(** The write time-out lets [data] through: there is none, or it is not
    negative and not below the estimated duration of the write. *)
Definition write_in_time (tmo : option float) (data : bytes) (baudrate : Z) : Prop :=
  match tmo with
  | Some t =>
      PrimFloat.ltb t 0 = false /\
      PrimFloat.ltb t (time_used_to_send data baudrate) = false
  | None => True
  end.



(** A clock that stands still, and one that is five seconds into its run. *)
Definition frozen_world : World := mkWorld (fun _ => 1000.0%float) 0 [].

Definition running_world : World :=
  mkWorld (fun n => float_of_int (Z.of_nat n)) 5 [].

(** The bytes of the queued items, oldest first. *)
Definition payload (x : pyobj) : bytes :=
  match x with
  | PyBytes b => b
  | PyNone => []
  end.

Definition queued_bytes (items : list pyobj) : bytes := flat_map payload items.

(** The time-out of the data model: absent, or not negative. *)
Definition timeout_ok (tmo : option float) : Prop :=
  match tmo with
  | Some t => PrimFloat.ltb t 0 = false
  | None => True
  end.


(** [logger.debug] and [logger.info] calls, as opposed to everything else
    that is traced. *)
Definition is_log_call (e : event) : bool :=
  match e with
  | LogCall _ _ _ => true
  | _ => false
  end.

(** The trace without the log calls. *)
Definition without_log_calls (events : list event) : list event :=
  filter (fun e => negb (is_log_call e)) events.

(** A port whose address was taken away after a session that left
    [items] unread. *)
Definition unconfigured_port (items : list pyobj) : Serial :=
  mkSerial false None 9600 None None false false false false false
    4096 (Some None) (Some (Queue.mk 4096 items)).

(** Unfolds the plumbing of [M], leaving the attributes and the queue. *)
Ltac run_port :=
  cbv [bind gets modify ret raise block do_emit self_logger self_queue
       require_open log_if_logger time_time try_except outcome self world].

(** * Properties *)

(** ** Running computations *)

Lemma bind_Returns {A B : Type} (m : M A) (k : A -> M B) s w a s' w' :
  m s w = mkResult (Returns a) s' w' -> bind m k s w = k a s' w'.
Proof. intros E. unfold bind. rewrite E. reflexivity. Qed.

Lemma bind_Raises {A B : Type} (m : M A) (k : A -> M B) s w e s' w' :
  m s w = mkResult (Raises e) s' w' -> bind m k s w = mkResult (Raises e) s' w'.
Proof. intros E. unfold bind. rewrite E. reflexivity. Qed.

Lemma bind_Blocks {A B : Type} (m : M A) (k : A -> M B) s w s' w' :
  m s w = mkResult Blocks s' w' -> bind m k s w = mkResult Blocks s' w'.
Proof. intros E. unfold bind. rewrite E. reflexivity. Qed.

Lemma require_open_open s w :
  _isOpen s = true -> require_open s w = mkResult (Returns tt) s w.
Proof. intros E. unfold require_open, bind, gets. simpl. rewrite E. reflexivity. Qed.

Lemma require_open_closed s w :
  _isOpen s = false -> require_open s w = mkResult (Raises portNotOpenError) s w.
Proof. intros E. unfold require_open, bind, gets. simpl. rewrite E. reflexivity. Qed.

(** A guarded method raises on a closed port before doing anything else. *)
Lemma guarded_closed {A : Type} (k : M A) s w :
  _isOpen s = false ->
  (require_open ;; k) s w = mkResult (Raises portNotOpenError) s w.
Proof. intros E. unfold bind. rewrite (require_open_closed _ _ E). reflexivity. Qed.

Lemma guarded_open {A : Type} (k : M A) s w :
  _isOpen s = true -> (require_open ;; k) s w = k s w.
Proof. intros E. unfold bind. rewrite (require_open_open _ _ E). reflexivity. Qed.

(** Logging leaves the object alone and, once [logger] exists, returns. *)
Lemma log_if_logger_run level m s w lg :
  logger s = Some lg ->
  log_if_logger level m s w =
    mkResult (Returns tt) s
      match lg with
      | Some l => emit (LogCall l level m) w
      | None => w
      end.
Proof.
  intros E. cbv [log_if_logger bind self_logger do_emit ret outcome self world].
  rewrite E. destruct lg as [l|]; reflexivity.
Qed.

Lemma set_queue_same s q : queue s = Some q -> set_queue q s = s.
Proof. destruct s; simpl. intros ->. reflexivity. Qed.

(** With a turn for each item the loop empties the queue, so that it ends
    on [qsize()] being zero. *)
Lemma drain_turns_enough turns : forall q,
  (length (Queue.items q) <= turns)%nat ->
  drain_turns turns q = Queue.mk (Queue.maxsize q) [].
Proof.
  induction turns as [|turns IH]; intros [m items] L; simpl in L.
  - destruct items; [reflexivity | simpl in L; lia].
  - destruct items as [|x rest]; [reflexivity|].
    cbn [drain_turns]. unfold Queue.qsize, Queue.get_nowait. cbn [Queue.items length].
    replace (Z.of_nat (S (length rest)) =? 0) with false by (symmetry; apply Z.eqb_neq; lia).
    rewrite IH by (simpl in *; lia). reflexivity.
Qed.

Lemma drain_empties q : drain q = Queue.mk (Queue.maxsize q) [].
Proof. apply drain_turns_enough. lia. Qed.

Lemma drain_stops q : Queue.qsize (drain q) = 0.
Proof. rewrite drain_empties. reflexivity. Qed.

(** ** Queries and guards on a closed port *)

Lemma dsr_run s w lg :
  logger s = Some lg ->
  outcome (dsr s w) = Returns (_dtr_state s) /\ self (dsr s w) = s.
Proof.
  intros E. unfold dsr. run_port. rewrite E. destruct lg as [l|]; auto.
Qed.

(** C2: on a closed port [read], [write], [in_waiting], both buffer resets
    and [cts] raise portNotOpenError; [dsr], the one line query written
    without the guard, does not: it returns the state of DTR (as soon as the
    [logger] attribute exists) and never raises portNotOpenError. *)
Theorem closed_port_guards_all_but_dsr s w size data :
  _isOpen s = false ->
  outcome (read size s w) = Raises portNotOpenError /\
  outcome (write data s w) = Raises portNotOpenError /\
  outcome (in_waiting s w) = Raises portNotOpenError /\
  outcome (reset_input_buffer s w) = Raises portNotOpenError /\
  outcome (reset_output_buffer s w) = Raises portNotOpenError /\
  outcome (cts s w) = Raises portNotOpenError /\
  (forall lg, logger s = Some lg -> outcome (dsr s w) = Returns (_dtr_state s)) /\
  outcome (dsr s w) <> Raises portNotOpenError.
Proof.
  intros C.
  unfold read, write, in_waiting, reset_input_buffer, reset_output_buffer, cts.
  rewrite !guarded_closed by exact C. simpl.
  repeat split; try reflexivity.
  - intros lg E. apply (dsr_run s w lg E).
  - destruct (logger s) as [lg|] eqn:E.
    + destruct (dsr_run s w lg E) as [-> _]. discriminate.
    + unfold dsr. run_port. rewrite E. discriminate.
Qed.

Lemma closed_port_guards_all_but_dsr_witness :
  _isOpen (closed_port true []) = false /\
  outcome (cts (closed_port true []) sample_world) = Raises portNotOpenError /\
  outcome (dsr (closed_port true []) sample_world) = Returns true.
Proof.
  pose proof (closed_port_guards_all_but_dsr (closed_port true []) sample_world
                1 [] eq_refl) as (_ & _ & _ & _ & _ & Hcts & Hdsr & _).
  split; [reflexivity|]. split; [exact Hcts|].
  exact (Hdsr None eq_refl).
Defined.




(** ** open() and close() *)



Lemma time_sleep_run t s w :
  PrimFloat.ltb t 0 = false ->
  time_sleep t s w = mkResult (Returns tt) s (emit (Sleep t) w).
Proof. intros E. unfold time_sleep. rewrite E. reflexivity. Qed.

(** A reader waiting in [queue.get] without time-out on an empty queue. *)
Lemma read_turn_blocks continue timeout data s w q :
  queue s = Some q ->
  Queue.items q = [] ->
  _timeout s = None ->
  read_turn continue timeout data s w = mkResult Blocks s w.
Proof.
  intros Q I T. unfold read_turn, queue_get. run_port.
  rewrite T, Q. unfold Queue.get. rewrite I. reflexivity.
Qed.

(** C1: [Serial.close] is the second [def close] of the class, and it does
    not touch the queue: after [close()] on an open port the queue holds
    what it held before, with no sentinel added, and a reader that waits
    without time-out on the empty queue is still blocked. *)
Theorem close_leaves_queue_untouched s w q :
  _isOpen s = true ->
  queue s = Some q ->
  close s w = mkResult (Returns tt) (set_isOpen false s) (emit (Sleep 0.3) w) /\
  queue (self (close s w)) = Some q /\
  (Queue.items q = [] -> _timeout s = None ->
   forall continue timeout data w',
     outcome (read_turn continue timeout data (self (close s w)) w') = Blocks).
Proof.
  intros O Q.
  assert (E : close s w =
                mkResult (Returns tt) (set_isOpen false s) (emit (Sleep 0.3) w)).
  { unfold close, close_at_94. run_port. rewrite O. reflexivity. }
  rewrite E. simpl. repeat split; [exact Q|].
  intros I T continue timeout data w'.
  rewrite (read_turn_blocks continue timeout data _ w' q); auto.
Qed.

Lemma close_leaves_queue_untouched_witness :
  _isOpen (open_port None None []) = true /\
  queue (open_port None None []) = Some (Queue.mk 4096 []) /\
  queue (self (close (open_port None None []) sample_world)) = Some (Queue.mk 4096 []) /\
  outcome (read_turn ret None [] (self (close (open_port None None []) sample_world))
             sample_world) = Blocks.
Proof.
  pose proof (close_leaves_queue_untouched (open_port None None []) sample_world
                (Queue.mk 4096 []) eq_refl eq_refl) as (_ & Hq & Hb).
  split; [reflexivity|]. split; [reflexivity|]. split; [exact Hq|].
  exact (Hb eq_refl eq_refl ret None [] sample_world).
Defined.

(** The sentinel of the shadowed [def close] (line 79) would not be a
    short read either: [read] adds whatever it takes off the queue to its
    bytearray, and adding None raises TypeError. *)
Lemma read_turn_on_sentinel continue timeout data s w q rest :
  queue s = Some q ->
  Queue.items q = PyNone :: rest ->
  _timeout s = None ->
  outcome (read_turn continue timeout data s w) = Raises TypeError.
Proof.
  intros Q I T. unfold read_turn, queue_get, bytearray_iadd. run_port.
  rewrite T, Q. unfold Queue.get. rewrite I. reflexivity.
Qed.

(** ** write() *)

(** C5: on an open port with a write time-out [t] (not negative, as the
    time-outs of the data model are), a write whose estimated duration
    10.0*len(data)/baudrate exceeds [t] sleeps for [t] and raises
    writeTimeoutError; the port, and with it the queue, is as before. *)
Theorem write_exceeding_timeout s w data t :
  _isOpen s = true ->
  0 < _baudrate s < 2 ^ 32 ->
  _writeTimeout s = Some t ->
  PrimFloat.ltb t 0 = false ->
  PrimFloat.ltb t (time_used_to_send data (_baudrate s)) = true ->
  write data s w = mkResult (Raises writeTimeoutError) s (emit (Sleep t) w).
Proof.
  intros O B T N L. unfold write.
  rewrite guarded_open by exact O.
  unfold to_bytes. cbv [bind gets ret raise outcome self world].
  assert (B0 : (_baudrate s =? 0) = false) by (apply Z.eqb_neq; lia).
  rewrite B0, T. cbv [outcome self world]. rewrite L.
  rewrite (time_sleep_run t s w N). reflexivity.
Qed.

Lemma write_exceeding_timeout_witness :
  _isOpen hurried_port = true /\
  PrimFloat.ltb 0.001 (time_used_to_send [Byte.x61; Byte.x62] (_baudrate hurried_port)) = true /\
  outcome (write [Byte.x61; Byte.x62] hurried_port sample_world) = Raises writeTimeoutError /\
  queue (self (write [Byte.x61; Byte.x62] hurried_port sample_world)) = queue hurried_port.
Proof.
  assert (L : PrimFloat.ltb 0.001
                (time_used_to_send [Byte.x61; Byte.x62] (_baudrate hurried_port)) = true)
    by (vm_compute; reflexivity).
  pose proof (write_exceeding_timeout hurried_port sample_world [Byte.x61; Byte.x62]
                0.001%float eq_refl (conj eq_refl eq_refl) eq_refl eq_refl L) as E.
  split; [reflexivity|]. split; [exact L|].
  rewrite E. split; reflexivity.
Defined.

(** ** Buffer resets *)

Lemma drain_queue_run s w q :
  queue s = Some q ->
  (q <- self_queue ;; modify (set_queue (drain q))) s w =
  mkResult (Returns tt) (set_queue (Queue.mk (Queue.maxsize q) []) s) w.
Proof. intros Q. run_port. rewrite Q, drain_empties. reflexivity. Qed.

(** C9: on an open port [reset_input_buffer] and [reset_output_buffer] both
    return, both leave the one queue empty and everything else as it was,
    and so end in the same port state; without a logger attached the two
    calls are indistinguishable. *)
Theorem reset_buffers_agree s w q lg :
  _isOpen s = true ->
  queue s = Some q ->
  logger s = Some lg ->
  outcome (reset_input_buffer s w) = Returns tt /\
  outcome (reset_output_buffer s w) = Returns tt /\
  self (reset_input_buffer s w) = set_queue (Queue.mk (Queue.maxsize q) []) s /\
  self (reset_output_buffer s w) = self (reset_input_buffer s w) /\
  (lg = None -> reset_output_buffer s w = reset_input_buffer s w).
Proof.
  intros O Q L. unfold reset_input_buffer, reset_output_buffer.
  rewrite !guarded_open by exact O.
  rewrite (bind_Returns _ _ s w tt _ _ (log_if_logger_run INFO log_flushInput s w lg L)).
  rewrite (bind_Returns _ _ s w tt _ _ (log_if_logger_run INFO log_flushOutput s w lg L)).
  rewrite !drain_queue_run with (q := q) by exact Q.
  cbv [outcome self world]. repeat split.
  intros ->. reflexivity.
Qed.

Lemma reset_buffers_agree_witness :
  _isOpen (open_port None None two_units) = true /\
  self (reset_input_buffer (open_port None None two_units) sample_world) =
    open_port None None [] /\
  self (reset_output_buffer (open_port None None two_units) sample_world) =
    open_port None None [].
Proof.
  pose proof (reset_buffers_agree (open_port None None two_units) sample_world
                _ None eq_refl eq_refl eq_refl) as (_ & _ & Hin & Hout & _).
  split; [reflexivity|]. split; [exact Hin|].
  rewrite Hout. exact Hin.
Defined.

(** ** write() followed by read() or in_waiting *)

Lemma queue_put_room x s w q :
  queue s = Some q ->
  Queue.maxsize q <= 0 \/ Queue.qsize q < Queue.maxsize q ->
  queue_put x None s w = mkResult (Returns tt) (set_queue (Queue.push q x) s) w.
Proof.
  intros Q R. unfold queue_put. run_port. rewrite Q. unfold Queue.put.
  destruct (0 <? Queue.maxsize q) eqn:B; [|reflexivity].
  destruct (Queue.maxsize q <=? Queue.qsize q) eqn:F; [|reflexivity].
  apply Z.ltb_lt in B. apply Z.leb_le in F. lia.
Qed.

Lemma qsize_push q x : Queue.qsize (Queue.push q x) = Queue.qsize q + 1.
Proof. unfold Queue.qsize, Queue.push. simpl. rewrite length_app. simpl. lia. Qed.

(** With room for all of them, the units are appended in order. *)
Lemma write_each_room data : forall s w q,
  queue s = Some q ->
  _writeTimeout s = None ->
  Queue.maxsize q <= 0 \/
  Queue.qsize q + Z.of_nat (length data) <= Queue.maxsize q ->
  write_each (iterbytes data) s w =
    mkResult (Returns tt)
      (set_queue (Queue.mk (Queue.maxsize q) (Queue.items q ++ iterbytes data)) s) w.
Proof.
  induction data as [|b rest IH]; intros s w q Q T R.
  - simpl. rewrite app_nil_r. unfold ret. f_equal.
    symmetry. apply set_queue_same. rewrite Q. destruct q; reflexivity.
  - change (iterbytes (b :: rest)) with (PyBytes [b] :: iterbytes rest).
    cbn [write_each].
    rewrite (bind_Returns _ _ s w None s w) by (unfold gets; rewrite T; reflexivity).
    rewrite (bind_Returns _ _ s w tt _ _ (queue_put_room (PyBytes [b]) s w q Q
               ltac:(cbn [length] in R; lia))).
    rewrite (IH _ w (Queue.push q (PyBytes [b]))); try reflexivity.
    + simpl. rewrite <- app_assoc. reflexivity.
    + exact T.
    + rewrite qsize_push. simpl Queue.maxsize. cbn [length] in R. lia.
Qed.

Lemma write_run data s w q :
  _isOpen s = true ->
  _baudrate s <> 0 ->
  _writeTimeout s = None ->
  queue s = Some q ->
  Queue.maxsize q <= 0 \/
  Queue.qsize q + Z.of_nat (length data) <= Queue.maxsize q ->
  write data s w =
    mkResult (Returns (Z.of_nat (length data)))
      (set_queue (Queue.mk (Queue.maxsize q) (Queue.items q ++ iterbytes data)) s) w.
Proof.
  intros O B T Q R. unfold write. rewrite guarded_open by exact O.
  unfold to_bytes.
  rewrite (bind_Returns _ _ s w (_baudrate s) s w) by reflexivity.
  apply Z.eqb_neq in B. rewrite B.
  rewrite (bind_Returns _ _ s w _ s w) by reflexivity.
  rewrite (bind_Returns _ _ s w None s w) by (unfold gets; rewrite T; reflexivity).
  rewrite (bind_Returns _ _ s w tt s w) by reflexivity.
  rewrite (bind_Returns _ _ s w tt _ _ (write_each_room data s w q Q T R)).
  reflexivity.
Qed.

(** Without time-out, an open port hands out the queued units one by one. *)
Lemma read_loop_units units : forall data rest s w q,
  _isOpen s = true ->
  _timeout s = None ->
  queue s = Some q ->
  Queue.items q = iterbytes units ++ rest ->
  read_loop (length units) None data s w =
    mkResult (Returns (data ++ units))
      (set_queue (Queue.mk (Queue.maxsize q) rest) s) w.
Proof.
  induction units as [|b units IH]; intros data rest s w q O T Q I.
  - simpl in *. rewrite app_nil_r. unfold ret. f_equal.
    symmetry. apply set_queue_same. rewrite Q, <- I. destruct q; reflexivity.
  - cbn [length read_loop].
    rewrite (bind_Returns _ _ s w true s w) by (unfold gets; rewrite O; reflexivity).
    unfold read_turn, queue_get, bytearray_iadd, deadline_passed. run_port.
    rewrite T, Q. unfold Queue.get. rewrite I. cbn [iterbytes map app].
    cbv [outcome self world].
    rewrite (IH (data ++ [b]) rest _ w (Queue.mk (Queue.maxsize q) (iterbytes units ++ rest)));
      try reflexivity; auto.
    rewrite <- app_assoc. reflexivity.
Qed.

Lemma read_run units s w q rest :
  _isOpen s = true ->
  _timeout s = None ->
  queue s = Some q ->
  Queue.items q = iterbytes units ++ rest ->
  read (Z.of_nat (length units)) s w =
    mkResult (Returns units) (set_queue (Queue.mk (Queue.maxsize q) rest) s) w.
Proof.
  intros O T Q I. unfold read. rewrite guarded_open by exact O.
  rewrite (bind_Returns _ _ s w None s w) by (unfold gets; rewrite T; reflexivity).
  rewrite (bind_Returns _ _ s w None s w) by reflexivity.
  rewrite Nat2Z.id. apply (read_loop_units units [] rest s w q O T Q I).
Qed.

Lemma in_waiting_run s w q lg :
  _isOpen s = true ->
  logger s = Some lg ->
  queue s = Some q ->
  outcome (in_waiting s w) = Returns (Queue.qsize q) /\ self (in_waiting s w) = s.
Proof.
  intros O L Q. unfold in_waiting. rewrite guarded_open by exact O.
  destruct s; simpl in L, Q; subst. destruct lg as [l|]; split; reflexivity.
Qed.

Lemma set_queue_twice a b s : set_queue a (set_queue b s) = set_queue a s.
Proof. reflexivity. Qed.

Lemma iterbytes_app d1 d2 : iterbytes (d1 ++ d2) = iterbytes d1 ++ iterbytes d2.
Proof. apply map_app. Qed.

Lemma iterbytes_length d : length (iterbytes d) = length d.
Proof. apply length_map. Qed.

(** C6: on an open port with an empty queue, no time-outs and room for both,
    [write(d1)], [write(d2)] and a read of len(d1)+len(d2) bytes return
    len(d1), len(d2) and d1 + d2, and leave the port as it was; so does a
    single [write(d1)] followed by a read of len(d1) bytes. *)
Theorem write_write_read_fifo d1 d2 s w q :
  _isOpen s = true ->
  queue s = Some q ->
  Queue.items q = [] ->
  _timeout s = None ->
  _writeTimeout s = None ->
  0 < _baudrate s < 2 ^ 32 ->
  Z.of_nat (length d1) + Z.of_nat (length d2) <= Queue.maxsize q ->
  (n1 <- write d1 ;; n2 <- write d2 ;; data <- read (n1 + n2) ;; ret (n1, n2, data)) s w =
    mkResult (Returns (Z.of_nat (length d1), Z.of_nat (length d2), d1 ++ d2)) s w
  /\
  (n <- write d1 ;; data <- read n ;; ret (n, data)) s w =
    mkResult (Returns (Z.of_nat (length d1), d1)) s w.
Proof.
  intros O Q I T WT B R.
  assert (B0 : _baudrate s <> 0) by lia.
  assert (Eq : q = Queue.mk (Queue.maxsize q) []) by (destruct q; simpl in *; subst; reflexivity).
  assert (W1 := write_run d1 s w q O B0 WT Q
                  ltac:(right; unfold Queue.qsize; rewrite I; simpl length; lia)).
  rewrite I in W1. cbn [app] in W1.
  set (s1 := set_queue (Queue.mk (Queue.maxsize q) (iterbytes d1)) s) in *.
  assert (W2 := write_run d2 s1 w (Queue.mk (Queue.maxsize q) (iterbytes d1))
                  O B0 WT eq_refl
                  ltac:(right; unfold Queue.qsize; simpl Queue.items; simpl Queue.maxsize;
                        rewrite iterbytes_length; lia)).
  cbn [Queue.items Queue.maxsize] in W2. rewrite <- iterbytes_app in W2.
  set (s2 := set_queue (Queue.mk (Queue.maxsize q) (iterbytes (d1 ++ d2))) s1) in *.
  assert (Back : set_queue (Queue.mk (Queue.maxsize q) []) s = s)
    by (rewrite <- Eq; apply set_queue_same, Q).
  split.
  - rewrite (bind_Returns _ _ s w _ _ _ W1).
    rewrite (bind_Returns _ _ s1 w _ _ _ W2).
    rewrite <- Nat2Z.inj_add, <- length_app.
    rewrite (bind_Returns _ _ s2 w _ _ _
               (read_run (d1 ++ d2) s2 w _ [] O T eq_refl
                  ltac:(simpl; rewrite app_nil_r; reflexivity))).
    unfold ret. f_equal.
    unfold s2, s1. cbn [Queue.maxsize]. rewrite !set_queue_twice. exact Back.
  - rewrite (bind_Returns _ _ s w _ _ _ W1).
    rewrite (bind_Returns _ _ s1 w _ _ _
               (read_run d1 s1 w _ [] O T eq_refl
                  ltac:(simpl; rewrite app_nil_r; reflexivity))).
    unfold ret. f_equal.
    unfold s1. cbn [Queue.maxsize]. rewrite !set_queue_twice. exact Back.
Qed.

Lemma write_write_read_fifo_witness :
  (n1 <- write [Byte.x68; Byte.x69] ;; n2 <- write [Byte.x21] ;;
   data <- read (n1 + n2) ;; ret (n1, n2, data)) (open_port None None []) sample_world =
    mkResult (Returns (2, 1, [Byte.x68; Byte.x69; Byte.x21]))
             (open_port None None []) sample_world.
Proof.
  exact (proj1 (write_write_read_fifo [Byte.x68; Byte.x69] [Byte.x21]
                  (open_port None None []) sample_world (Queue.mk 4096 [])
                  eq_refl eq_refl eq_refl eq_refl eq_refl
                  (conj eq_refl eq_refl) ltac:(vm_compute; discriminate))).
Defined.

(** C8: on an open port with an empty queue, no write time-out and room for
    [d], [write(d)] returns len(d) and [in_waiting] read right after it
    returns len(d) too. *)
Theorem write_then_in_waiting d s w q lg :
  _isOpen s = true ->
  queue s = Some q ->
  Queue.items q = [] ->
  logger s = Some lg ->
  _writeTimeout s = None ->
  0 < _baudrate s < 2 ^ 32 ->
  Z.of_nat (length d) <= Queue.maxsize q ->
  outcome ((n <- write d ;; k <- in_waiting ;; ret (n, k)) s w) =
    Returns (Z.of_nat (length d), Z.of_nat (length d)).
Proof.
  intros O Q I L WT B R.
  assert (B0 : _baudrate s <> 0) by lia.
  assert (W := write_run d s w q O B0 WT Q
                 ltac:(right; unfold Queue.qsize; rewrite I; simpl length; lia)).
  rewrite I in W. cbn [app] in W.
  rewrite (bind_Returns _ _ s w _ _ _ W).
  set (s1 := set_queue (Queue.mk (Queue.maxsize q) (iterbytes d)) s).
  destruct (in_waiting_run s1 w (Queue.mk (Queue.maxsize q) (iterbytes d)) lg O L eq_refl)
    as [Hout Hself].
  unfold bind. rewrite Hout. cbv [ret outcome].
  unfold Queue.qsize. cbn [Queue.items]. rewrite iterbytes_length. reflexivity.
Qed.

Lemma write_then_in_waiting_witness :
  outcome ((n <- write [Byte.x68; Byte.x69] ;; k <- in_waiting ;; ret (n, k))
             (open_port None None []) sample_world) = Returns (2, 2).
Proof.
  exact (write_then_in_waiting [Byte.x68; Byte.x69] (open_port None None [])
           sample_world (Queue.mk 4096 []) None
           eq_refl eq_refl eq_refl eq_refl eq_refl
           (conj eq_refl eq_refl) ltac:(vm_compute; discriminate)).
Defined.

(** ** Short reads *)

Lemma deadline_passed_run deadline s w :
  exists late w', deadline_passed deadline s w = mkResult (Returns late) s w'.
Proof.
  unfold deadline_passed. destruct deadline as [dl|].
  - destruct (float_truthy dl); do 2 eexists; reflexivity.
  - do 2 eexists; reflexivity.
Qed.

(** A turn that finds a bytes object on the queue takes it. *)
Lemma read_turn_got continue deadline data s w q b rest :
  queue s = Some q ->
  Queue.items q = PyBytes b :: rest ->
  timeout_ok (_timeout s) ->
  read_turn continue deadline data s w =
    (late <- deadline_passed deadline ;;
     if late then ret (data ++ b) else continue (data ++ b))
      (set_queue (Queue.mk (Queue.maxsize q) rest) s) w.
Proof.
  intros Q I T. unfold read_turn, queue_get, bytearray_iadd.
  cbv [bind gets modify ret raise try_except self_queue outcome self world].
  rewrite Q. unfold Queue.get. rewrite I.
  destruct (_timeout s) as [t|]; [simpl in T; rewrite T|]; reflexivity.
Qed.


(** A timed turn that finds the queue empty: what becomes of it is what
    becomes of the wait. *)
Lemma read_turn_empty continue deadline data s w q t :
  queue s = Some q ->
  Queue.items q = [] ->
  _timeout s = Some t ->
  PrimFloat.ltb t 0 = false ->
  read_turn continue deadline data s w =
    match Queue.wait t with
    | Queue.WaitPasses => mkResult (Returns data) s (emit (Wait t) w)
    | Queue.WaitTooLarge => mkResult (Raises OverflowError) s w
    | Queue.WaitSpins => mkResult Blocks s w
    end.
Proof.
  intros Q I T N. unfold read_turn, queue_get. run_port.
  rewrite T, Q. unfold Queue.get. rewrite N, I.
  destruct (Queue.wait t); reflexivity.
Qed.


(** A read loop that finds the port closed returns what it has. *)
Lemma read_loop_closed size deadline data s w :
  _isOpen s = false ->
  read_loop size deadline data s w = mkResult (Returns data) s w.
Proof.
  intros C. destruct size as [|size]; [reflexivity|].
  cbn [read_loop]. cbv [bind gets outcome self world]. rewrite C. reflexivity.
Qed.

(** What a read loop can do on a queue of bytes objects: return the bytes
    of the first [k] items; wait for ever, when no time-out is set or the
    time-out is no number; or raise the OverflowError of a time-out that is
    too large to wait for. *)
Lemma read_loop_short size : forall deadline data s w q,
  queue s = Some q ->
  forallb is_bytes (Queue.items q) = true ->
  timeout_ok (_timeout s) ->
  match outcome (read_loop size deadline data s w) with
  | Returns out =>
      exists k, (k <= size)%nat /\
        out = data ++ queued_bytes (firstn k (Queue.items q)) /\
        self (read_loop size deadline data s w) =
          set_queue (Queue.mk (Queue.maxsize q) (skipn k (Queue.items q))) s
  | Raises e =>
      e = OverflowError /\
      exists t, _timeout s = Some t /\ Queue.wait t = Queue.WaitTooLarge
  | Blocks =>
      _timeout s = None \/
      exists t, _timeout s = Some t /\ Queue.wait t = Queue.WaitSpins
  end.
Proof.
  induction size as [|size IH]; intros deadline data s w q Q F T.
  - simpl. exists 0%nat. simpl. rewrite app_nil_r. repeat split; auto.
    symmetry. apply set_queue_same. rewrite Q. destruct q; reflexivity.
  - destruct (_isOpen s) eqn:O.
    2:{ rewrite read_loop_closed by exact O. simpl. exists 0%nat. simpl.
        rewrite app_nil_r. repeat split; [lia|].
        symmetry. apply set_queue_same. rewrite Q. destruct q; reflexivity. }
    cbn [read_loop].
    rewrite (bind_Returns _ _ s w true s w) by (unfold gets; rewrite O; reflexivity).
    destruct (Queue.items q) as [|x rest] eqn:I.
    + destruct (_timeout s) as [t|] eqn:E.
      * rewrite (read_turn_empty _ deadline data s w q t Q I E T).
        destruct (Queue.wait t) eqn:W; cbn [outcome self].
        -- exists 0%nat. simpl. rewrite app_nil_r. repeat split; [lia|].
           symmetry. apply set_queue_same. rewrite Q, <- I. destruct q; reflexivity.
        -- split; [reflexivity|]. exists t. auto.
        -- right. exists t. auto.
      * rewrite (read_turn_blocks _ deadline data s w q Q I E). left. reflexivity.
    + simpl in F. apply andb_true_iff in F. destruct F as [Fx F].
      destruct x as [|b]; [discriminate|].
      rewrite (read_turn_got _ deadline data s w q b rest Q I T).
      set (s1 := set_queue (Queue.mk (Queue.maxsize q) rest) s).
      destruct (deadline_passed_run deadline s1 w) as (late & w1 & D).
      rewrite (bind_Returns _ _ s1 w late s1 w1 D).
      destruct late.
      * simpl. exists 1%nat. simpl. rewrite app_nil_r. repeat split; lia.
      * specialize (IH deadline (data ++ b) s1 w1 (Queue.mk (Queue.maxsize q) rest)
                       eq_refl F T).
        cbn [Queue.items Queue.maxsize] in IH.
        destruct (outcome (read_loop size deadline (data ++ b) s1 w1)) as [out| |].
        -- destruct IH as (k & K & -> & S1). exists (S k).
           repeat split; [lia| |].
           ++ simpl. rewrite <- app_assoc. reflexivity.
           ++ rewrite S1. reflexivity.
        -- exact IH.
        -- exact IH.
Qed.




(** ** Addresses *)

Lemma fromURL_not_loop {U : UrlLib} url s w :
  String.eqb (scheme (urlsplit url)) "loop" = false ->
  fromURL url s w =
    mkResult (Raises (SerialException (url_not_loop (scheme (urlsplit url))))) s w.
Proof. intros E. unfold fromURL. rewrite E. reflexivity. Qed.

(** An option other than [logging] is reported as a SerialException. *)
Lemma fromURL_unknown_option {U : UrlLib} url s w option values rest :
  scheme (urlsplit url) = "loop"%string ->
  parse_qs (query (urlsplit url)) true = (option, values) :: rest ->
  String.eqb option "logging" = false ->
  fromURL url s w =
    mkResult (Raises (SerialException (url_bad_option (unknown_option option)))) s w.
Proof.
  intros Sch P N. unfold fromURL. rewrite Sch, P. rewrite String.eqb_refl.
  cbn [negb fromURL_options]. rewrite N. reflexivity.
Qed.

(** A value of [logging] that is no key of [LOGGER_LEVELS] escapes the
    [except ValueError] clause as a KeyError. *)
Lemma fromURL_bad_level {U : UrlLib} url s w v vs rest :
  scheme (urlsplit url) = "loop"%string ->
  parse_qs (query (urlsplit url)) true = ("logging"%string, v :: vs) :: rest ->
  dict_get LOGGER_LEVELS v = None ->
  fromURL url s w =
    mkResult (Raises (KeyError v)) (set_logger (Some "pySerial.loop"%string) s)
             (emit basicConfig w).
Proof.
  intros Sch P K. unfold fromURL. rewrite Sch, P. rewrite String.eqb_refl.
  cbn [negb fromURL_options]. rewrite String.eqb_refl.
  cbv [bind modify raise ret do_emit try_except first_value logger_level
       outcome self world].
  rewrite K. reflexivity.
Qed.

(** [open()] up to that KeyError. *)
Lemma open_bad_level_run {U : UrlLib} s w url v vs rest :
  _isOpen s = false ->
  _port s = Some url ->
  scheme (urlsplit url) = "loop"%string ->
  parse_qs (query (urlsplit url)) true = ("logging"%string, v :: vs) :: rest ->
  dict_get LOGGER_LEVELS v = None ->
  open s w =
    mkResult (Raises (KeyError v))
      (set_logger (Some "pySerial.loop"%string)
         (set_queue (Queue.new (buffer_size s)) (set_logger None s)))
      (emit basicConfig w).
Proof.
  intros C P Sch Q K. unfold open.
  rewrite (bind_Returns _ _ s w false s w) by (unfold gets; rewrite C; reflexivity).
  rewrite (bind_Returns _ _ s w tt (set_logger None s) w) by reflexivity.
  rewrite (bind_Returns _ _ _ w (buffer_size s) (set_logger None s) w) by reflexivity.
  rewrite (bind_Returns _ _ _ w tt
             (set_queue (Queue.new (buffer_size s)) (set_logger None s)) w)
    by reflexivity.
  rewrite (bind_Returns _ _ _ w (Some url) _ w)
    by (unfold gets; cbn [_port set_queue set_logger]; rewrite P; reflexivity).
  apply bind_Raises. apply (fromURL_bad_level url _ w v vs rest Sch Q K).
Qed.

(** C3: [open()] on an address whose [logging] option has a value outside
    [LOGGER_LEVELS] fails, but with the KeyError of the failed dictionary
    lookup and not with the SerialException that reports a wrong scheme or
    an unknown option; the port stays closed. *)
Theorem open_bad_logging_value_KeyError {U : UrlLib} s w url v vs rest :
  _isOpen s = false ->
  _port s = Some url ->
  scheme (urlsplit url) = "loop"%string ->
  parse_qs (query (urlsplit url)) true = ("logging"%string, v :: vs) :: rest ->
  dict_get LOGGER_LEVELS v = None ->
  outcome (open s w) = Raises (KeyError v) /\
  (forall m, outcome (open s w) <> Raises (SerialException m)) /\
  _isOpen (self (open s w)) = false.
Proof.
  intros C P Sch Q K.
  rewrite (open_bad_level_run s w url v vs rest C P Sch Q K).
  cbn [outcome self]. repeat split.
  - intros m. discriminate.
  - exact C.
Qed.

Lemma open_bad_logging_value_KeyError_witness :
  _isOpen (new_port (Some "loop://?logging=bogus"%string)) = false /\
  dict_get LOGGER_LEVELS "bogus" = None /\
  outcome (open (new_port (Some "loop://?logging=bogus"%string)) sample_world) =
    Raises (KeyError "bogus").
Proof.
  pose proof (open_bad_logging_value_KeyError
                (new_port (Some "loop://?logging=bogus"%string)) sample_world
                "loop://?logging=bogus"%string "bogus"%string [] []
                eq_refl eq_refl eq_refl eq_refl eq_refl) as (E & _).
  split; [reflexivity|]. split; [reflexivity | exact E].
Defined.

(** The two other failures of the address are SerialExceptions. *)
Lemma open_other_address_failures :
  outcome (open (new_port (Some "loop://?unknown=1"%string)) sample_world) =
    Raises (SerialException (url_bad_option (unknown_option "unknown"))) /\
  outcome (open (new_port (Some "ftp://"%string)) sample_world) =
    Raises (SerialException (url_not_loop "ftp")).
Proof. split; reflexivity. Qed.

(** ** The ports that open() produces *)

(** The sample open port is what [open()] makes of a new port on [loop://]. *)
Lemma open_new_port :
  open (new_port (Some "loop://"%string)) sample_world =
    mkResult (Returns tt) (open_port None None []) sample_world.
Proof. reflexivity. Qed.

(** Reading the options of the address leaves the port as it is, except
    that it may attach the logger. *)
Lemma fromURL_options_frame options : forall s w lg,
  logger s = Some lg ->
  (exists lg', self (fromURL_options options s w) = set_logger lg' s) /\
  (forall e, outcome (fromURL_options options s w) = Raises e ->
     e = IndexError \/ (exists k, e = KeyError k) \/
     (exists o, e = ValueError (unknown_option o))).
Proof.
  induction options as [|[option values] rest IH]; intros s w lg L.
  - simpl. split.
    + exists lg. destruct s; simpl in L; subst; reflexivity.
    + discriminate.
  - cbn [fromURL_options].
    destruct (String.eqb option "logging"); cbv beta iota.
    + destruct values as [|v vs].
      * cbv [bind modify raise ret do_emit first_value outcome self world].
        split; [eexists; reflexivity|]. intros e [= <-]. auto.
      * destruct (dict_get LOGGER_LEVELS v) as [level|] eqn:K.
        -- match goal with
           | |- context [bind ?m ?k s w] =>
               assert (E : m s w =
                 mkResult (Returns tt) (set_logger (Some "pySerial.loop"%string) s)
                   (emit (LogCall "pySerial.loop"%string DEBUG log_enabled_logging)
                      (emit (setLevel "pySerial.loop"%string level)
                         (emit basicConfig w))))
           end.
           { cbv [bind modify raise ret do_emit first_value logger_level
                  outcome self world]. rewrite K. reflexivity. }
           rewrite (bind_Returns _ _ s w tt _ _ E).
           specialize (IH (set_logger (Some "pySerial.loop"%string) s)
                          (emit (LogCall "pySerial.loop"%string DEBUG log_enabled_logging)
                             (emit (setLevel "pySerial.loop"%string level)
                                (emit basicConfig w)))
                          (Some "pySerial.loop"%string) eq_refl).
           destruct IH as [[lg' S'] R']. split; [|exact R'].
           exists lg'. rewrite S'. reflexivity.
        -- cbv [bind modify raise ret do_emit first_value logger_level
                outcome self world]. rewrite K.
           split; [eexists; reflexivity|]. intros e [= <-]. eauto.
    + cbv [bind raise outcome self world].
      split; [exists lg; destruct s; simpl in L; subst; reflexivity|].
      intros e [= <-]. eauto.
Qed.

Lemma fromURL_frame {U : UrlLib} url s w lg :
  logger s = Some lg ->
  exists lg', self (fromURL url s w) = set_logger lg' s.
Proof.
  intros L. unfold fromURL.
  destruct (negb (String.eqb (scheme (urlsplit url)) "loop")).
  - exists lg. destruct s; simpl in L; subst; reflexivity.
  - destruct (fromURL_options_frame (parse_qs (query (urlsplit url)) true) s w lg L)
      as [[lg' S'] R'].
    unfold try_except.
    destruct (outcome (fromURL_options (parse_qs (query (urlsplit url)) true) s w))
      as [a|e|] eqn:O; try (exists lg'; exact S').
    destruct e; exists lg'; exact S'.
Qed.

Lemma reconfigurePort_run s w lg :
  logger s = Some lg ->
  _reconfigurePort s w =
    if (0 <? _baudrate s) && (_baudrate s <? 2 ^ 32)
    then mkResult (Returns tt) s
           match lg with
           | Some l => emit (LogCall l INFO log_reconfigurePort) w
           | None => w
           end
    else mkResult (Raises (ValueError (invalid_baudrate (_baudrate s)))) s w.
Proof.
  intros L. unfold _reconfigurePort.
  rewrite (bind_Returns _ _ s w (_baudrate s) s w) by reflexivity.
  destruct ((0 <? _baudrate s) && (_baudrate s <? 2 ^ 32)); cbn [negb].
  - apply log_if_logger_run, L.
  - reflexivity.
Qed.

Lemma reset_input_buffer_run s w q lg :
  _isOpen s = true ->
  queue s = Some q ->
  logger s = Some lg ->
  reset_input_buffer s w =
    mkResult (Returns tt) (set_queue (Queue.mk (Queue.maxsize q) []) s)
      match lg with
      | Some l => emit (LogCall l INFO log_flushInput) w
      | None => w
      end.
Proof.
  intros O Q L. unfold reset_input_buffer. rewrite guarded_open by exact O.
  rewrite (bind_Returns _ _ s w tt _ _ (log_if_logger_run INFO log_flushInput s w lg L)).
  apply drain_queue_run, Q.
Qed.

Lemma reset_output_buffer_run s w q lg :
  _isOpen s = true ->
  queue s = Some q ->
  logger s = Some lg ->
  reset_output_buffer s w =
    mkResult (Returns tt) (set_queue (Queue.mk (Queue.maxsize q) []) s)
      match lg with
      | Some l => emit (LogCall l INFO log_flushOutput) w
      | None => w
      end.
Proof.
  intros O Q L. unfold reset_output_buffer. rewrite guarded_open by exact O.
  rewrite (bind_Returns _ _ s w tt _ _ (log_if_logger_run INFO log_flushOutput s w lg L)).
  apply drain_queue_run, Q.
Qed.

(** Every port that [open()] returns from is open, has its logger
    attribute, an empty queue of [buffer_size] and a baud rate in range. *)
Lemma open_establishes {U : UrlLib} s w :
  outcome (open s w) = Returns tt ->
  _isOpen (self (open s w)) = true /\
  (exists lg, logger (self (open s w)) = Some lg) /\
  queue (self (open s w)) = Some (Queue.mk (buffer_size s) []) /\
  0 < _baudrate (self (open s w)) < 2 ^ 32.
Proof.
  remember (open s w) as r eqn:E. revert E. unfold open.
  rewrite (bind_Returns _ _ s w (_isOpen s) s w) by reflexivity.
  destruct (_isOpen s) eqn:C; [intros ->; discriminate|].
  rewrite (bind_Returns _ _ s w tt (set_logger None s) w) by reflexivity.
  rewrite (bind_Returns _ _ _ w (buffer_size s) (set_logger None s) w) by reflexivity.
  set (s1 := set_queue (Queue.new (buffer_size s)) (set_logger None s)).
  rewrite (bind_Returns _ _ _ w tt s1 w) by reflexivity.
  rewrite (bind_Returns _ _ s1 w (_port s) s1 w) by reflexivity.
  destruct (_port s) as [url|]; [|intros ->; discriminate].
  destruct (fromURL_frame url s1 w None eq_refl) as [lg S2].
  unfold bind at 1.
  destruct (outcome (fromURL url s1 w)); try (intros ->; discriminate).
  rewrite S2. set (s2 := set_logger lg s1). set (w2 := world (fromURL url s1 w)).
  unfold bind at 1. rewrite (reconfigurePort_run s2 w2 lg eq_refl).
  change (_baudrate s2) with (_baudrate s).
  destruct ((0 <? _baudrate s) && (_baudrate s <? 2 ^ 32)) eqn:B;
    [|intros ->; discriminate].
  cbn [outcome self world].
  set (w3 := match lg with Some l => _ | None => _ end).
  rewrite (bind_Returns _ _ s2 w3 tt (set_isOpen true s2) w3) by reflexivity.
  set (s3 := set_isOpen true s2).
  rewrite (bind_Returns _ _ s3 w3 (negb (dsrdtr s)) s3 w3) by reflexivity.
  assert (D : exists w4,
             (if negb (dsrdtr s) then _update_dtr_state else ret tt) s3 w3 =
               mkResult (Returns tt) s3 w4).
  { destruct (negb (dsrdtr s)); [|eexists; reflexivity].
    unfold _update_dtr_state.
    rewrite (bind_Returns _ _ s3 w3 (_dtr_state s) s3 w3) by reflexivity.
    rewrite (log_if_logger_run _ _ s3 w3 lg eq_refl). eexists; reflexivity. }
  destruct D as [w4 D]. rewrite (bind_Returns _ _ s3 w3 tt s3 w4 D).
  rewrite (bind_Returns _ _ s3 w4 (negb (_rtscts s)) s3 w4) by reflexivity.
  assert (R : exists w5,
             (if negb (_rtscts s) then _update_rts_state else ret tt) s3 w4 =
               mkResult (Returns tt) s3 w5).
  { destruct (negb (_rtscts s)); [|eexists; reflexivity].
    unfold _update_rts_state.
    rewrite (bind_Returns _ _ s3 w4 (_rts_state s) s3 w4) by reflexivity.
    rewrite (log_if_logger_run _ _ s3 w4 lg eq_refl). eexists; reflexivity. }
  destruct R as [w5 R]. rewrite (bind_Returns _ _ s3 w4 tt s3 w5 R).
  rewrite (bind_Returns _ _ s3 w5 tt _ _
             (reset_input_buffer_run s3 w5 (Queue.new (buffer_size s)) lg
                eq_refl eq_refl eq_refl)).
  rewrite (reset_output_buffer_run
             (set_queue (Queue.mk (buffer_size s) []) s3) _
             (Queue.mk (buffer_size s) []) lg eq_refl eq_refl eq_refl).
  intros -> _. cbn [self Queue.maxsize].
  apply andb_true_iff in B. destruct B as [B1 B2].
  apply Z.ltb_lt in B1. apply Z.ltb_lt in B2.
  split; [reflexivity|]. split; [exists lg; reflexivity|].
  split; [reflexivity|]. split; assumption.
Qed.

Lemma queue_put_run x tmo s w q :
  queue s = Some q ->
  queue_put x tmo s w =
    match Queue.put q x tmo with
    | Queue.Put q' => mkResult (Returns tt) (set_queue q' s) w
    | Queue.PutFull waited => mkResult (Raises queue_Full) s (emit (Wait waited) w)
    | Queue.PutBadTimeout => mkResult (Raises (ValueError negative_timeout)) s w
    | Queue.PutBlocks => mkResult Blocks s w
    | Queue.PutOverflow => mkResult (Raises OverflowError) s w
    end.
Proof.
  intros Q. unfold queue_put.
  rewrite (bind_Returns _ _ s w q s w) by (unfold self_queue; rewrite Q; reflexivity).
  destruct (Queue.put q x tmo); reflexivity.
Qed.

(** [write] puts bytes objects only: a queue of bytes objects stays one,
    however the write ends. *)
Lemma write_each_keeps_bytes units : forall s w q,
  queue s = Some q ->
  forallb is_bytes (Queue.items q) = true ->
  forallb is_bytes units = true ->
  exists q', queue (self (write_each units s w)) = Some q' /\
             forallb is_bytes (Queue.items q') = true.
Proof.
  induction units as [|x rest IH]; intros s w q Q F U.
  - exists q. auto.
  - simpl in U. apply andb_true_iff in U. destruct U as [Ux U].
    cbn [write_each].
    rewrite (bind_Returns _ _ s w (_writeTimeout s) s w) by reflexivity.
    unfold bind at 1. rewrite (queue_put_run x (_writeTimeout s) s w q Q).
    destruct (Queue.put q x (_writeTimeout s)) as [q1|t| | |] eqn:P;
      try (exists q; split; [exact Q | exact F]).
    cbn [outcome self world].
    apply (IH _ w q1); [reflexivity| |exact U].
    assert (q1 = Queue.push q x) as ->.
    { unfold Queue.put in P.
      repeat match type of P with
             | (if ?c then _ else _) = _ => destruct c
             | match ?c with _ => _ end = _ => destruct c
             end; congruence. }
    unfold Queue.push. cbn [Queue.items]. rewrite forallb_app, F. simpl.
    rewrite Ux. reflexivity.
Qed.

Lemma iterbytes_are_bytes data : forallb is_bytes (iterbytes data) = true.
Proof. induction data as [|b rest IH]; simpl; auto. Qed.

Lemma write_keeps_bytes data s w q :
  queue s = Some q ->
  forallb is_bytes (Queue.items q) = true ->
  exists q', queue (self (write data s w)) = Some q' /\
             forallb is_bytes (Queue.items q') = true.
Proof.
  intros Q F. unfold write, to_bytes.
  destruct (_isOpen s) eqn:O.
  2:{ rewrite guarded_closed by exact O. exists q. auto. }
  rewrite guarded_open by exact O.
  rewrite (bind_Returns _ _ s w (_baudrate s) s w) by reflexivity.
  destruct (_baudrate s =? 0).
  { exists q. auto. }
  rewrite (bind_Returns _ _ s w (time_used_to_send data (_baudrate s)) s w) by reflexivity.
  rewrite (bind_Returns _ _ s w (_writeTimeout s) s w) by reflexivity.
  assert (Pre : forall (k : M Z),
            (exists w', (match _writeTimeout s with
                         | Some t =>
                             if PrimFloat.ltb t (time_used_to_send data (_baudrate s))
                             then time_sleep t ;; raise writeTimeoutError
                             else ret tt
                         | None => ret tt
                         end ;; k) s w = k s w') \/
            self ((match _writeTimeout s with
                   | Some t =>
                       if PrimFloat.ltb t (time_used_to_send data (_baudrate s))
                       then time_sleep t ;; raise writeTimeoutError
                       else ret tt
                   | None => ret tt
                   end ;; k) s w) = s).
  { intros k. destruct (_writeTimeout s) as [t|]; [|left; exists w; reflexivity].
    destruct (PrimFloat.ltb t (time_used_to_send data (_baudrate s)));
      [|left; exists w; reflexivity].
    right. unfold time_sleep. destruct (PrimFloat.ltb t 0); reflexivity. }
  destruct (Pre (write_each (iterbytes data) ;; ret (Z.of_nat (length data))))
    as [[w' ->] | ->]; [|exists q; auto].
  destruct (write_each_keeps_bytes (iterbytes data) s w' q Q F (iterbytes_are_bytes data))
    as (q' & Q' & F').
  exists q'. split; [|exact F'].
  unfold bind. destruct (outcome (write_each (iterbytes data) s w')); exact Q'.
Qed.

(** ** Addresses of the form loop://?logging=<value>, for the plain parser *)

Lemma partition_absent c v :
  Urllib.all_chars (fun a => negb (Ascii.eqb a c)) v = true ->
  Urllib.partition c v = (v, None).
Proof.
  induction v as [|a v IH]; intros P; [reflexivity|].
  simpl in P. apply andb_true_iff in P. destruct P as [Pa P].
  cbn [Urllib.partition]. apply negb_true_iff in Pa. rewrite Pa, (IH P). reflexivity.
Qed.

Lemma split_absent c v :
  Urllib.all_chars (fun a => negb (Ascii.eqb a c)) v = true ->
  Urllib.split c v = [v].
Proof.
  induction v as [|a v IH]; intros P; [reflexivity|].
  simpl in P. apply andb_true_iff in P. destruct P as [Pa P].
  cbn [Urllib.split]. apply negb_true_iff in Pa. rewrite Pa, (IH P). reflexivity.
Qed.

Lemma plus_to_space_absent v :
  Urllib.all_chars (fun a => negb (Ascii.eqb a "+")) v = true ->
  Urllib.plus_to_space v = v.
Proof.
  unfold Urllib.plus_to_space.
  induction v as [|a v IH]; intros P; [reflexivity|].
  simpl in P. apply andb_true_iff in P. destruct P as [Pa P].
  apply negb_true_iff in Pa. rewrite Pa, (IH P). reflexivity.
Qed.

Lemma all_chars_weaken (p p' : ascii -> bool) v :
  (forall a, p a = true -> p' a = true) ->
  Urllib.all_chars p v = true -> Urllib.all_chars p' v = true.
Proof.
  intros W. induction v as [|a v IH]; [reflexivity|].
  simpl. intros P. apply andb_true_iff in P. destruct P as [Pa P].
  rewrite (W a Pa), (IH P). reflexivity.
Qed.

Lemma plain_char_not (c : ascii) a :
  In c ["#"; "?"; "&"; "="; "+"]%char ->
  plain_char a = true -> negb (Ascii.eqb a c) = true.
Proof.
  unfold plain_char. intros I P.
  repeat (apply andb_true_iff in P; destruct P as [P ?]).
  simpl in I. intuition (subst; assumption).
Qed.

(** How the plain parser reads such an address. *)
Lemma urlsplit_logging_value v :
  Urllib.all_chars plain_char v = true ->
  Urllib.urlsplit (logging_address v) =
    mkSplit "loop" "" "" ("logging=" ++ v) "" /\
  Urllib.parse_qs ("logging=" ++ v) true = [("logging"%string, [v])].
Proof.
  intros P.
  assert (N : forall c, In c ["#"; "?"; "&"; "="; "+"]%char ->
                Urllib.all_chars (fun a => negb (Ascii.eqb a c)) v = true).
  { intros c I. apply (all_chars_weaken plain_char); [|exact P].
    intros a. apply plain_char_not, I. }
  split.
  - unfold Urllib.urlsplit.
    replace (Urllib.split_scheme (logging_address v))
      with ("loop"%string, ("//?logging=" ++ v)%string) by reflexivity.
    cbv beta iota.
    replace (Urllib.split_netloc ("//?logging=" ++ v))
      with (""%string, ("?logging=" ++ v)%string) by reflexivity.
    cbv beta iota.
    rewrite (partition_absent "#" ("?logging=" ++ v))
      by (simpl; apply N; simpl; auto 10).
    reflexivity.
  - unfold Urllib.parse_qs, Urllib.parse_qsl.
    rewrite (split_absent "&" ("logging=" ++ v))
      by (simpl; apply N; simpl; auto 10).
    cbn [flat_map].
    replace (Urllib.nonempty ("logging=" ++ v)) with true by reflexivity.
    replace (Urllib.partition "=" ("logging=" ++ v))
      with ("logging"%string, Some v) by reflexivity.
    cbv beta iota. rewrite orb_true_r.
    rewrite (plus_to_space_absent v) by (apply N; simpl; auto 10).
    reflexivity.
Qed.

(** With the plain parser, every address [loop://?logging=<value>] whose
    value is a plain word outside [LOGGER_LEVELS] makes [open()] raise the
    KeyError. *)
Lemma open_logging_address_KeyError v s w :
  Urllib.all_chars plain_char v = true ->
  dict_get LOGGER_LEVELS v = None ->
  _isOpen s = false ->
  _port s = Some (logging_address v) ->
  outcome (open s w) = Raises (KeyError v).
Proof.
  intros P K C A.
  destruct (urlsplit_logging_value v P) as [Split Parse].
  rewrite (open_bad_level_run s w (logging_address v) v [] [] C A).
  - reflexivity.
  - cbn [urlsplit plain_urllib]. rewrite Split. reflexivity.
  - cbn [urlsplit parse_qs plain_urllib]. rewrite Split. exact Parse.
  - exact K.
Qed.

(** * Further properties *)

(** ** Worlds that only grow *)

Lemma later_world_refl w : later_world w w.
Proof. exists []. rewrite app_nil_r. destruct w; reflexivity. Qed.

Lemma later_world_emit e w w' : later_world w w' -> later_world w (emit e w').
Proof.
  intros [events ->]. exists (events ++ [e]). unfold emit. simpl.
  rewrite app_assoc. reflexivity.
Qed.

Lemma later_world_trans w1 w2 w3 :
  later_world w1 w2 -> later_world w2 w3 -> later_world w1 w3.
Proof.
  intros [e1 ->] [e2 ->]. exists (e1 ++ e2). simpl. rewrite app_assoc. reflexivity.
Qed.

Lemma later_world_log (lg : option Logger) level m w :
  later_world w match lg with
                | Some l => emit (LogCall l level m) w
                | None => w
                end.
Proof.
  destruct lg; [apply later_world_emit|]; apply later_world_refl.
Qed.

(** ** open(), part by part *)

Lemma open_closed_run {U : UrlLib} s w url :
  _isOpen s = false ->
  _port s = Some url ->
  open s w =
    (fromURL url ;; open_configured)
      (set_queue (Queue.new (buffer_size s)) (set_logger None s)) w.
Proof.
  intros C P. unfold open.
  rewrite (bind_Returns _ _ s w false s w) by (unfold gets; rewrite C; reflexivity).
  rewrite (bind_Returns _ _ s w tt (set_logger None s) w) by reflexivity.
  rewrite (bind_Returns _ _ _ w (buffer_size s) (set_logger None s) w) by reflexivity.
  rewrite (bind_Returns _ _ _ w tt
             (set_queue (Queue.new (buffer_size s)) (set_logger None s)) w)
    by reflexivity.
  rewrite (bind_Returns _ _ _ w (Some url) _ w)
    by (unfold gets; cbn [_port set_queue set_logger]; rewrite P; reflexivity).
  reflexivity.
Qed.

Lemma update_dtr_state_run s w lg :
  logger s = Some lg ->
  exists w', later_world w w' /\
    (if negb (dsrdtr s) then _update_dtr_state else ret tt) s w =
      mkResult (Returns tt) s w'.
Proof.
  intros L. destruct (negb (dsrdtr s)).
  - unfold _update_dtr_state.
    rewrite (bind_Returns _ _ s w (_dtr_state s) s w) by reflexivity.
    rewrite (log_if_logger_run _ _ s w lg L). eexists. split; [|reflexivity].
    apply later_world_log.
  - exists w. split; [apply later_world_refl | reflexivity].
Qed.

Lemma update_rts_state_run s w lg :
  logger s = Some lg ->
  exists w', later_world w w' /\
    (if negb (_rtscts s) then _update_rts_state else ret tt) s w =
      mkResult (Returns tt) s w'.
Proof.
  intros L. destruct (negb (_rtscts s)).
  - unfold _update_rts_state.
    rewrite (bind_Returns _ _ s w (_rts_state s) s w) by reflexivity.
    rewrite (log_if_logger_run _ _ s w lg L). eexists. split; [|reflexivity].
    apply later_world_log.
  - exists w. split; [apply later_world_refl | reflexivity].
Qed.

(** Once the address is read, [open()] depends on the baud rate alone. *)
Lemma open_configured_run s w lg q :
  logger s = Some lg ->
  queue s = Some q ->
  if (0 <? _baudrate s) && (_baudrate s <? 2 ^ 32) then
    exists w', later_world w w' /\
      open_configured s w =
        mkResult (Returns tt)
          (set_queue (Queue.mk (Queue.maxsize q) []) (set_isOpen true s)) w'
  else
    open_configured s w =
      mkResult (Raises (ValueError (invalid_baudrate (_baudrate s)))) s w.
Proof.
  intros L Q. unfold open_configured.
  destruct ((0 <? _baudrate s) && (_baudrate s <? 2 ^ 32)) eqn:B.
  2:{ unfold bind at 1. rewrite (reconfigurePort_run s w lg L), B. reflexivity. }
  unfold bind at 1. rewrite (reconfigurePort_run s w lg L), B.
  cbn [outcome self world].
  set (w1 := match lg with Some l => _ | None => _ end).
  assert (W1 : later_world w w1) by apply later_world_log.
  rewrite (bind_Returns _ _ s w1 tt (set_isOpen true s) w1) by reflexivity.
  set (s1 := set_isOpen true s).
  rewrite (bind_Returns _ _ s1 w1 (negb (dsrdtr s)) s1 w1) by reflexivity.
  destruct (update_dtr_state_run s1 w1 lg L) as (w2 & W2 & D).
  rewrite (bind_Returns _ _ s1 w1 tt s1 w2 D).
  rewrite (bind_Returns _ _ s1 w2 (negb (_rtscts s)) s1 w2) by reflexivity.
  destruct (update_rts_state_run s1 w2 lg L) as (w3 & W3 & R).
  rewrite (bind_Returns _ _ s1 w2 tt s1 w3 R).
  rewrite (bind_Returns _ _ s1 w3 tt _ _
             (reset_input_buffer_run s1 w3 q lg eq_refl Q L)).
  rewrite (reset_output_buffer_run
             (set_queue (Queue.mk (Queue.maxsize q) []) s1) _
             (Queue.mk (Queue.maxsize q) []) lg eq_refl eq_refl L).
  eexists. split; [|reflexivity].
  eapply later_world_trans; [exact W1|].
  eapply later_world_trans; [exact W2|].
  eapply later_world_trans; [exact W3|].
  eapply later_world_trans; apply later_world_log.
Qed.

(** Reading the options ends by returning or by raising, with nothing but
    the logger changed. *)
Lemma fromURL_options_cases options : forall s w lg,
  logger s = Some lg ->
  exists lg' w', later_world w w' /\
    (fromURL_options options s w = mkResult (Returns tt) (set_logger lg' s) w' \/
     exists e, fromURL_options options s w = mkResult (Raises e) (set_logger lg' s) w' /\
       (e = IndexError \/ (exists k, e = KeyError k) \/
        (exists o, e = ValueError (unknown_option o)))).
Proof.
  induction options as [|[option values] rest IH]; intros s w lg L.
  - exists lg, w. split; [apply later_world_refl|]. left.
    simpl. unfold ret. f_equal. destruct s; simpl in L; subst; reflexivity.
  - cbn [fromURL_options].
    destruct (String.eqb option "logging"); cbv beta iota.
    + destruct values as [|v vs].
      * exists (Some "pySerial.loop"%string), (emit basicConfig w).
        split; [apply later_world_emit, later_world_refl|]. right.
        exists IndexError. split; [reflexivity | auto].
      * destruct (dict_get LOGGER_LEVELS v) as [level|] eqn:K.
        -- set (s1 := set_logger (Some "pySerial.loop"%string) s).
           set (w1 := emit (LogCall "pySerial.loop"%string DEBUG log_enabled_logging)
                        (emit (setLevel "pySerial.loop"%string level)
                           (emit basicConfig w))).
           match goal with
           | |- context [bind ?m ?k s w] =>
               assert (E : m s w = mkResult (Returns tt) s1 w1)
           end.
           { cbv [bind modify raise ret do_emit first_value logger_level
                  outcome self world]. rewrite K. reflexivity. }
           rewrite (bind_Returns _ _ s w tt _ _ E).
           destruct (IH s1 w1 (Some "pySerial.loop"%string) eq_refl)
             as (lg' & w' & W & H).
           exists lg', w'. split.
           { eapply later_world_trans; [|exact W].
             repeat apply later_world_emit. apply later_world_refl. }
           exact H.
        -- exists (Some "pySerial.loop"%string), (emit basicConfig w).
           split; [apply later_world_emit, later_world_refl|]. right.
           exists (KeyError v). split; [|eauto].
           cbv [bind modify raise ret do_emit first_value logger_level
                outcome self world]. rewrite K. reflexivity.
    + exists lg, w. split; [apply later_world_refl|]. right.
      exists (ValueError (unknown_option option)). split; [|eauto].
      cbv [bind raise outcome self world]. f_equal.
      destruct s; simpl in L; subst; reflexivity.
Qed.

(** [fromURL] returns, or raises a SerialException for a wrong scheme or an
    unknown option, or lets the KeyError or IndexError of a [logging] value
    through; it changes nothing but the logger. *)
Lemma fromURL_cases {U : UrlLib} url s w lg :
  logger s = Some lg ->
  exists lg' w', later_world w w' /\
    (fromURL url s w = mkResult (Returns tt) (set_logger lg' s) w' \/
     exists e, fromURL url s w = mkResult (Raises e) (set_logger lg' s) w' /\
       (e = IndexError \/ (exists k, e = KeyError k) \/
        (exists m, e = SerialException m))).
Proof.
  intros L. unfold fromURL.
  destruct (negb (String.eqb (scheme (urlsplit url)) "loop")).
  - exists lg, w. split; [apply later_world_refl|]. right.
    eexists. split; [|eauto]. unfold raise. f_equal.
    destruct s; simpl in L; subst; reflexivity.
  - destruct (fromURL_options_cases (parse_qs (query (urlsplit url)) true) s w lg L)
      as (lg' & w' & W & [E | (e & E & K)]).
    + exists lg', w'. split; [exact W|]. left. unfold try_except. rewrite E. reflexivity.
    + exists lg', w'. split; [exact W|]. right.
      unfold try_except. rewrite E. cbn [outcome self world].
      destruct K as [-> | [[k ->] | [o ->]]].
      * exists IndexError. split; [reflexivity | auto].
      * exists (KeyError k). split; [reflexivity | eauto].
      * eexists. split; [reflexivity | eauto].
Qed.

(** ** What open() returns and how it fails *)

Lemma later_world_In e w w' : later_world w w' -> In e (trace w) -> In e (trace w').
Proof. intros [events ->] I. simpl. apply in_or_app. now left. Qed.

(** X1: when [open()] returns, the port was closed and had an address and a
    baud rate in range, and it is now open with an empty queue of
    [buffer_size] and a logger attribute; its address, baud rate, time-outs,
    control lines and buffer size are what they were. *)
Theorem open_returns_open_port {U : UrlLib} s w :
  outcome (open s w) = Returns tt ->
  _isOpen s = false /\
  _port s <> None /\
  0 < _baudrate s < 2 ^ 32 /\
  exists lg,
    self (open s w) =
      set_queue (Queue.mk (buffer_size s) []) (set_isOpen true (set_logger lg s)).
Proof.
  destruct (_isOpen s) eqn:C.
  { unfold open. rewrite (bind_Returns _ _ s w true s w)
      by (unfold gets; rewrite C; reflexivity). discriminate. }
  destruct (_port s) as [url|] eqn:P.
  2:{ unfold open. run_port. rewrite C. simpl. rewrite P. discriminate. }
  rewrite (open_closed_run s w url C P).
  set (s1 := set_queue (Queue.new (buffer_size s)) (set_logger None s)).
  destruct (fromURL_cases url s1 w None eq_refl) as (lg & w1 & _ & [E | (e & E & _)]).
  2:{ rewrite (bind_Raises _ _ s1 w e _ _ E). discriminate. }
  rewrite (bind_Returns _ _ s1 w tt _ _ E).
  pose proof (open_configured_run (set_logger lg s1) w1 lg (Queue.new (buffer_size s))
                eq_refl eq_refl) as R.
  change (_baudrate (set_logger lg s1)) with (_baudrate s) in R.
  destruct ((0 <? _baudrate s) && (_baudrate s <? 2 ^ 32)) eqn:B.
  2:{ rewrite R. discriminate. }
  destruct R as (w2 & _ & ->). intros _.
  apply andb_true_iff in B. destruct B as [B1 B2].
  apply Z.ltb_lt in B1. apply Z.ltb_lt in B2.
  split; [reflexivity|]. split; [discriminate|]. split; [lia|].
  exists lg. reflexivity.
Qed.

Lemma open_returns_open_port_witness :
  outcome (open (new_port (Some "loop://"%string)) sample_world) = Returns tt /\
  exists lg,
    self (open (new_port (Some "loop://"%string)) sample_world) =
      set_queue (Queue.mk 4096 [])
        (set_isOpen true (set_logger lg (new_port (Some "loop://"%string)))).
Proof.
  split; [reflexivity|].
  exact (proj2 (proj2 (proj2 (open_returns_open_port
           (new_port (Some "loop://"%string)) sample_world eq_refl)))).
Defined.

(** X2: [open()] never waits: it returns with the port open, or it raises
    and leaves [_isOpen] as it found it (a port that failed to open is not
    left half open). *)
Theorem open_opens_or_raises {U : UrlLib} s w :
  (outcome (open s w) = Returns tt /\ _isOpen (self (open s w)) = true) \/
  (exists e, outcome (open s w) = Raises e /\
             _isOpen (self (open s w)) = _isOpen s).
Proof.
  destruct (_isOpen s) eqn:C.
  { right. exists (SerialException port_already_open).
    unfold open. rewrite (bind_Returns _ _ s w true s w)
      by (unfold gets; rewrite C; reflexivity).
    split; [reflexivity | exact C]. }
  destruct (_port s) as [url|] eqn:P.
  2:{ right. exists (SerialException port_not_configured).
      unfold open. run_port. rewrite C. simpl. rewrite P. split; [reflexivity | exact C]. }
  rewrite (open_closed_run s w url C P).
  set (s1 := set_queue (Queue.new (buffer_size s)) (set_logger None s)).
  destruct (fromURL_cases url s1 w None eq_refl) as (lg & w1 & _ & [E | (e & E & _)]).
  2:{ right. exists e. rewrite (bind_Raises _ _ s1 w e _ _ E).
      split; [reflexivity | exact C]. }
  rewrite (bind_Returns _ _ s1 w tt _ _ E).
  pose proof (open_configured_run (set_logger lg s1) w1 lg (Queue.new (buffer_size s))
                eq_refl eq_refl) as R.
  change (_baudrate (set_logger lg s1)) with (_baudrate s) in R.
  destruct ((0 <? _baudrate s) && (_baudrate s <? 2 ^ 32)).
  - destruct R as (w2 & _ & ->). left. split; reflexivity.
  - rewrite R. right. eexists. split; [reflexivity | exact C].
Qed.

(** X3: [open()] on a port that is open already raises 'Port is already
    open.' before it touches anything: the queue keeps its unread items and
    the logger stays attached. *)
Theorem open_already_open {U : UrlLib} s w :
  _isOpen s = true ->
  open s w = mkResult (Raises (SerialException port_already_open)) s w.
Proof.
  intros O. unfold open.
  rewrite (bind_Returns _ _ s w true s w) by (unfold gets; rewrite O; reflexivity).
  reflexivity.
Qed.

Lemma open_already_open_witness :
  open (open_port None None two_units) sample_world =
    mkResult (Raises (SerialException port_already_open))
             (open_port None None two_units) sample_world.
Proof. exact (open_already_open (open_port None None two_units) sample_world eq_refl). Defined.

(** X4: with an address that has the [loop] scheme and no options, a baud
    rate outside 0 < baudrate < 2**32 makes [open()] raise the ValueError of
    [_reconfigurePort] (not a SerialException); the port stays closed, with
    the new empty queue. *)
Theorem open_invalid_baudrate {U : UrlLib} s w url :
  _isOpen s = false ->
  _port s = Some url ->
  scheme (urlsplit url) = "loop"%string ->
  parse_qs (query (urlsplit url)) true = [] ->
  (0 <? _baudrate s) && (_baudrate s <? 2 ^ 32) = false ->
  open s w =
    mkResult (Raises (ValueError (invalid_baudrate (_baudrate s))))
             (set_queue (Queue.new (buffer_size s)) (set_logger None s)) w.
Proof.
  intros C P Sch Q B.
  rewrite (open_closed_run s w url C P).
  set (s1 := set_queue (Queue.new (buffer_size s)) (set_logger None s)).
  assert (E : fromURL url s1 w = mkResult (Returns tt) s1 w).
  { unfold fromURL. rewrite Sch, Q. reflexivity. }
  rewrite (bind_Returns _ _ s1 w tt _ _ E).
  pose proof (open_configured_run s1 w None (Queue.new (buffer_size s))
                eq_refl eq_refl) as R.
  change (_baudrate s1) with (_baudrate s) in R. rewrite B in R. exact R.
Qed.

Lemma open_invalid_baudrate_witness :
  open bad_baud_port sample_world =
    mkResult (Raises (ValueError (invalid_baudrate 0)))
             (set_queue (Queue.new 4096) (set_logger None bad_baud_port)) sample_world.
Proof.
  exact (open_invalid_baudrate (U := plain_urllib) bad_baud_port sample_world "loop://"%string
           eq_refl eq_refl eq_refl eq_refl eq_refl).
Defined.

(** X5: an address whose scheme is not [loop] makes [open()] raise the
    SerialException that names the scheme; the port stays closed. *)
Theorem open_wrong_scheme {U : UrlLib} s w url :
  _isOpen s = false ->
  _port s = Some url ->
  String.eqb (scheme (urlsplit url)) "loop" = false ->
  open s w =
    mkResult (Raises (SerialException (url_not_loop (scheme (urlsplit url)))))
             (set_queue (Queue.new (buffer_size s)) (set_logger None s)) w.
Proof.
  intros C P Sch. rewrite (open_closed_run s w url C P).
  apply bind_Raises. apply fromURL_not_loop, Sch.
Qed.

Lemma open_wrong_scheme_witness :
  outcome (open (new_port (Some "ftp://"%string)) sample_world) =
    Raises (SerialException (url_not_loop "ftp")).
Proof.
  rewrite (open_wrong_scheme (U := plain_urllib) (new_port (Some "ftp://"%string)) sample_world
             "ftp://"%string eq_refl eq_refl eq_refl).
  reflexivity.
Defined.

(** X6: an address whose first option is not [logging] makes [open()] raise
    the SerialException that wraps 'unknown option'; the port stays
    closed and no logger is attached. *)
Theorem open_unknown_option {U : UrlLib} s w url option values rest :
  _isOpen s = false ->
  _port s = Some url ->
  scheme (urlsplit url) = "loop"%string ->
  parse_qs (query (urlsplit url)) true = (option, values) :: rest ->
  String.eqb option "logging" = false ->
  open s w =
    mkResult (Raises (SerialException (url_bad_option (unknown_option option))))
             (set_queue (Queue.new (buffer_size s)) (set_logger None s)) w.
Proof.
  intros C P Sch Q N. rewrite (open_closed_run s w url C P).
  apply bind_Raises. apply (fromURL_unknown_option url _ w option values rest Sch Q N).
Qed.

Lemma open_unknown_option_witness :
  outcome (open (new_port (Some "loop://?unknown=1"%string)) sample_world) =
    Raises (SerialException (url_bad_option (unknown_option "unknown"))).
Proof.
  rewrite (open_unknown_option (U := plain_urllib) (new_port (Some "loop://?unknown=1"%string)) sample_world
             "loop://?unknown=1"%string "unknown"%string ["1"%string] []
             eq_refl eq_refl eq_refl eq_refl eq_refl).
  reflexivity.
Defined.

(** X7: an address whose only option is [logging] with a value (the first
    one, if it is given several times) that is a key of [LOGGER_LEVELS]
    makes [open()] return with the logger 'pySerial.loop' attached and set
    to the level that the table gives for the value. *)
Theorem open_logging_level {U : UrlLib} s w url v vs level :
  _isOpen s = false ->
  _port s = Some url ->
  scheme (urlsplit url) = "loop"%string ->
  parse_qs (query (urlsplit url)) true = [("logging"%string, v :: vs)] ->
  dict_get LOGGER_LEVELS v = Some level ->
  0 < _baudrate s < 2 ^ 32 ->
  outcome (open s w) = Returns tt /\
  self (open s w) =
    set_queue (Queue.mk (buffer_size s) [])
      (set_isOpen true (set_logger (Some "pySerial.loop"%string) s)) /\
  In (setLevel "pySerial.loop"%string level) (trace (world (open s w))).
Proof.
  intros C P Sch Q K B.
  rewrite (open_closed_run s w url C P).
  set (s1 := set_queue (Queue.new (buffer_size s)) (set_logger None s)).
  set (s2 := set_logger (Some "pySerial.loop"%string) s1).
  set (w2 := emit (LogCall "pySerial.loop"%string DEBUG log_enabled_logging)
               (emit (setLevel "pySerial.loop"%string level) (emit basicConfig w))).
  assert (E : fromURL url s1 w = mkResult (Returns tt) s2 w2).
  { unfold fromURL. rewrite Sch, Q. rewrite String.eqb_refl.
    cbn [negb fromURL_options]. rewrite String.eqb_refl.
    cbv [bind modify raise ret do_emit try_except first_value logger_level
         outcome self world].
    rewrite K. reflexivity. }
  rewrite (bind_Returns _ _ s1 w tt _ _ E).
  pose proof (open_configured_run s2 w2 (Some "pySerial.loop"%string)
                (Queue.new (buffer_size s)) eq_refl eq_refl) as R.
  change (_baudrate s2) with (_baudrate s) in R.
  replace ((0 <? _baudrate s) && (_baudrate s <? 2 ^ 32)) with true in R
    by (symmetry; apply andb_true_iff; split; apply Z.ltb_lt; lia).
  destruct R as (w3 & W & ->). cbn [outcome self world].
  split; [reflexivity|]. split; [reflexivity|].
  apply (later_world_In _ w2 w3 W). unfold w2, emit. simpl.
  apply in_or_app. left. apply in_or_app. right. simpl. auto.
Qed.

Lemma open_logging_level_witness :
  outcome (open (new_port (Some "loop://?logging=info&logging=bogus"%string))
             sample_world) = Returns tt /\
  In (setLevel "pySerial.loop"%string INFO)
     (trace (world (open (new_port (Some "loop://?logging=info&logging=bogus"%string))
                      sample_world))).
Proof.
  pose proof (open_logging_level (U := plain_urllib)
                (new_port (Some "loop://?logging=info&logging=bogus"%string))
                sample_world "loop://?logging=info&logging=bogus"%string
                "info"%string ["bogus"%string] INFO
                eq_refl eq_refl eq_refl eq_refl eq_refl (conj eq_refl eq_refl))
    as (Hout & _ & Hin).
  split; [exact Hout | exact Hin].
Defined.

(** ** close(), and opening again *)

Lemma close_open_run s w :
  _isOpen s = true ->
  close s w = mkResult (Returns tt) (set_isOpen false s) (emit (Sleep 0.3) w).
Proof. intros O. unfold close, close_at_94. run_port. rewrite O. reflexivity. Qed.

Lemma close_closed_run s w :
  _isOpen s = false -> close s w = mkResult (Returns tt) s w.
Proof. intros C. unfold close, close_at_94. run_port. rewrite C. reflexivity. Qed.

(** X8: a second [close()] does nothing: closing twice is closing once, and
    the 0.3 s pause is taken only by the call that finds the port open. *)
Theorem close_twice s w :
  (close ;; close) s w = close s w /\
  trace (world (close s w)) = trace w ++ (if _isOpen s then [Sleep 0.3] else []).
Proof.
  destruct (_isOpen s) eqn:O.
  - rewrite (bind_Returns _ _ s w tt _ _ (close_open_run s w O)).
    rewrite (close_closed_run (set_isOpen false s) _ eq_refl).
    rewrite (close_open_run s w O). split; reflexivity.
  - rewrite (bind_Returns _ _ s w tt _ _ (close_closed_run s w O)).
    rewrite (close_closed_run s w O). simpl. rewrite app_nil_r. split; reflexivity.
Qed.

(** X9: what is unread when the port is closed does not survive opening it
    again: after [close()] and [open()] on an address without options the
    queue is a new empty one and [in_waiting] is 0. *)
Theorem close_reopen_discards_unread {U : UrlLib} s w url :
  _isOpen s = true ->
  _port s = Some url ->
  scheme (urlsplit url) = "loop"%string ->
  parse_qs (query (urlsplit url)) true = [] ->
  0 < _baudrate s < 2 ^ 32 ->
  outcome ((close ;; open ;; in_waiting) s w) = Returns 0 /\
  queue (self ((close ;; open ;; in_waiting) s w)) = Some (Queue.mk (buffer_size s) []).
Proof.
  intros O P Sch Q B.
  remember ((close ;; open ;; in_waiting) s w) as r eqn:Er. revert Er.
  rewrite (bind_Returns _ _ s w tt _ _ (close_open_run s w O)).
  set (s0 := set_isOpen false s). set (w0 := emit (Sleep 0.3) w).
  unfold bind at 1.
  rewrite (open_closed_run s0 w0 url eq_refl P).
  set (s1 := set_queue (Queue.new (buffer_size s0)) (set_logger None s0)).
  assert (E : fromURL url s1 w0 = mkResult (Returns tt) s1 w0).
  { unfold fromURL. rewrite Sch, Q. reflexivity. }
  rewrite (bind_Returns _ _ s1 w0 tt _ _ E).
  pose proof (open_configured_run s1 w0 None (Queue.new (buffer_size s))
                eq_refl eq_refl) as R.
  change (_baudrate s1) with (_baudrate s) in R.
  replace ((0 <? _baudrate s) && (_baudrate s <? 2 ^ 32)) with true in R
    by (symmetry; apply andb_true_iff; split; apply Z.ltb_lt; lia).
  destruct R as (w2 & _ & ->). cbn [outcome self world Queue.maxsize Queue.new].
  destruct (in_waiting_run
              (set_queue (Queue.mk (buffer_size s) []) (set_isOpen true s1)) w2
              (Queue.mk (buffer_size s) []) None eq_refl eq_refl eq_refl)
    as [Hout Hself].
  intros ->. rewrite Hout, Hself. split; reflexivity.
Qed.

Lemma close_reopen_discards_unread_witness :
  outcome ((close ;; open ;; in_waiting) (open_port None None two_units) sample_world) =
    Returns 0.
Proof.
  exact (proj1 (close_reopen_discards_unread (U := plain_urllib)
                  (open_port None None two_units) sample_world "loop://"%string
                  eq_refl eq_refl eq_refl eq_refl (conj eq_refl eq_refl))).
Defined.

(** ** write(), whatever is queued already *)

Lemma queue_put_fits x tmo s w q :
  queue s = Some q ->
  timeout_ok tmo ->
  Queue.maxsize q <= 0 \/ Queue.qsize q < Queue.maxsize q ->
  queue_put x tmo s w = mkResult (Returns tt) (set_queue (Queue.push q x) s) w.
Proof.
  intros Q T R. rewrite (queue_put_run x tmo s w q Q). unfold Queue.put.
  destruct (0 <? Queue.maxsize q) eqn:B; [|reflexivity].
  apply Z.ltb_lt in B.
  assert (F : (Queue.maxsize q <=? Queue.qsize q) = false) by (apply Z.leb_gt; lia).
  destruct tmo as [t|]; [simpl in T; rewrite T|]; rewrite F; reflexivity.
Qed.


Lemma write_each_fits data : forall s w q,
  queue s = Some q ->
  timeout_ok (_writeTimeout s) ->
  Queue.maxsize q <= 0 \/
  Queue.qsize q + Z.of_nat (length data) <= Queue.maxsize q ->
  write_each (iterbytes data) s w =
    mkResult (Returns tt)
      (set_queue (Queue.mk (Queue.maxsize q) (Queue.items q ++ iterbytes data)) s) w.
Proof.
  induction data as [|b rest IH]; intros s w q Q T R.
  - simpl. rewrite app_nil_r. unfold ret. f_equal.
    symmetry. apply set_queue_same. rewrite Q. destruct q; reflexivity.
  - change (iterbytes (b :: rest)) with (PyBytes [b] :: iterbytes rest).
    cbn [write_each].
    rewrite (bind_Returns _ _ s w (_writeTimeout s) s w) by reflexivity.
    rewrite (bind_Returns _ _ s w tt _ _
               (queue_put_fits (PyBytes [b]) (_writeTimeout s) s w q Q T
                  ltac:(cbn [length] in R; lia))).
    rewrite (IH _ w (Queue.push q (PyBytes [b]))); try reflexivity.
    + simpl. rewrite <- app_assoc. reflexivity.
    + exact T.
    + rewrite qsize_push. simpl Queue.maxsize. cbn [length] in R. lia.
Qed.

(** [write] up to its loop, when the time-out lets the data through. *)
Lemma write_reaches_loop data s w :
  _isOpen s = true ->
  _baudrate s <> 0 ->
  write_in_time (_writeTimeout s) data (_baudrate s) ->
  write data s w =
    (write_each (iterbytes data) ;; ret (Z.of_nat (length data))) s w.
Proof.
  intros O B T. unfold write. rewrite guarded_open by exact O.
  unfold to_bytes.
  rewrite (bind_Returns _ _ s w (_baudrate s) s w) by reflexivity.
  apply Z.eqb_neq in B. rewrite B.
  rewrite (bind_Returns _ _ s w _ s w) by reflexivity.
  rewrite (bind_Returns _ _ s w (_writeTimeout s) s w) by reflexivity.
  unfold write_in_time in T.
  destruct (_writeTimeout s) as [t|].
  - destruct T as [_ T]. rewrite T.
    rewrite (bind_Returns _ _ s w tt s w) by reflexivity. reflexivity.
  - rewrite (bind_Returns _ _ s w tt s w) by reflexivity. reflexivity.
Qed.

Lemma write_in_time_ok tmo data baudrate :
  write_in_time tmo data baudrate -> timeout_ok tmo.
Proof. destruct tmo; simpl; [intros [H _]; exact H | auto]. Qed.

(** X10: on an open port whose write time-out (if any) lets the data
    through, a write that finds room for all its bytes, or an unbounded
    queue, returns len(data) and appends the bytes, one to an item, behind
    what is queued already. *)
Theorem write_appends data s w q :
  _isOpen s = true ->
  0 < _baudrate s < 2 ^ 32 ->
  write_in_time (_writeTimeout s) data (_baudrate s) ->
  queue s = Some q ->
  Queue.maxsize q <= 0 \/
  Queue.qsize q + Z.of_nat (length data) <= Queue.maxsize q ->
  write data s w =
    mkResult (Returns (Z.of_nat (length data)))
      (set_queue (Queue.mk (Queue.maxsize q) (Queue.items q ++ iterbytes data)) s) w.
Proof.
  intros O B T Q R.
  rewrite (write_reaches_loop data s w O ltac:(lia) T).
  rewrite (bind_Returns _ _ s w tt _ _
             (write_each_fits data s w q Q (write_in_time_ok _ _ _ T) R)).
  reflexivity.
Qed.

Lemma write_appends_witness :
  write [Byte.x61; Byte.x62] (open_port None (Some 1.0%float) [PyBytes [Byte.x7a]])
        sample_world =
    mkResult (Returns 2)
      (open_port None (Some 1.0%float)
         [PyBytes [Byte.x7a]; PyBytes [Byte.x61]; PyBytes [Byte.x62]])
      sample_world.
Proof.
  assert (T : write_in_time
                (_writeTimeout (open_port None (Some 1.0%float) [PyBytes [Byte.x7a]]))
                [Byte.x61; Byte.x62]
                (_baudrate (open_port None (Some 1.0%float) [PyBytes [Byte.x7a]])))
    by (split; vm_compute; reflexivity).
  assert (B : 0 < _baudrate (open_port None (Some 1.0%float) [PyBytes [Byte.x7a]]) < 2 ^ 32)
    by (split; reflexivity).
  assert (R : Queue.maxsize (Queue.mk 4096 [PyBytes [Byte.x7a]]) <= 0 \/
              Queue.qsize (Queue.mk 4096 [PyBytes [Byte.x7a]]) +
              Z.of_nat (length [Byte.x61; Byte.x62]) <=
              Queue.maxsize (Queue.mk 4096 [PyBytes [Byte.x7a]]))
    by (right; vm_compute; discriminate).
  exact (write_appends [Byte.x61; Byte.x62]
           (open_port None (Some 1.0%float) [PyBytes [Byte.x7a]]) sample_world
           (Queue.mk 4096 [PyBytes [Byte.x7a]]) eq_refl B T eq_refl R).
Defined.




(** Where [write] leaves the port: untouched, or where its loop left it. *)
Lemma write_self_cases data s w :
  self (write data s w) = s \/
  exists w', self (write data s w) = self (write_each (iterbytes data) s w').
Proof.
  unfold write, to_bytes.
  destruct (_isOpen s) eqn:O.
  2:{ rewrite guarded_closed by exact O. now left. }
  rewrite guarded_open by exact O.
  rewrite (bind_Returns _ _ s w (_baudrate s) s w) by reflexivity.
  destruct (_baudrate s =? 0); [now left|].
  rewrite (bind_Returns _ _ s w (time_used_to_send data (_baudrate s)) s w) by reflexivity.
  rewrite (bind_Returns _ _ s w (_writeTimeout s) s w) by reflexivity.
  assert (Loop : exists w',
            self ((write_each (iterbytes data) ;; ret (Z.of_nat (length data))) s w) =
            self (write_each (iterbytes data) s w')).
  { exists w. unfold bind.
    destruct (outcome (write_each (iterbytes data) s w)); reflexivity. }
  destruct (_writeTimeout s) as [t|].
  - destruct (PrimFloat.ltb t (time_used_to_send data (_baudrate s))).
    + left. unfold time_sleep. destruct (PrimFloat.ltb t 0); reflexivity.
    + right. rewrite (bind_Returns _ _ s w tt s w) by reflexivity. exact Loop.
  - right. rewrite (bind_Returns _ _ s w tt s w) by reflexivity. exact Loop.
Qed.

Lemma write_each_keeps_capacity units : forall s w q,
  queue s = Some q ->
  0 < Queue.maxsize q ->
  Queue.qsize q <= Queue.maxsize q ->
  exists fit rest,
    units = fit ++ rest /\
    queue (self (write_each units s w)) =
      Some (Queue.mk (Queue.maxsize q) (Queue.items q ++ fit)) /\
    Queue.qsize q + Z.of_nat (length fit) <= Queue.maxsize q.
Proof.
  induction units as [|x rest IH]; intros s w q Q M F.
  - exists [], []. rewrite !app_nil_r. simpl. rewrite Q.
    destruct q; unfold Queue.qsize in *; simpl in *; repeat split; auto; lia.
  - cbn [write_each].
    rewrite (bind_Returns _ _ s w (_writeTimeout s) s w) by reflexivity.
    unfold bind at 1. rewrite (queue_put_run x (_writeTimeout s) s w q Q).
    destruct (Queue.put q x (_writeTimeout s)) as [q1|t| | |] eqn:P;
      try (exists [], (x :: rest); rewrite app_nil_r; cbn [outcome self world app length];
           rewrite Q; destruct q; unfold Queue.qsize in *; simpl in *; repeat split; auto; lia).
    cbn [outcome self world].
    assert (q1 = Queue.push q x /\ Queue.qsize q < Queue.maxsize q) as [-> Room].
    { unfold Queue.put in P.
      replace (0 <? Queue.maxsize q) with true in P by (symmetry; apply Z.ltb_lt; lia).
      destruct (Queue.maxsize q <=? Queue.qsize q) eqn:L.
      - destruct (_writeTimeout s) as [t|];
          [destruct (PrimFloat.ltb t 0); [|destruct (Queue.wait t)]|]; discriminate.
      - apply Z.leb_gt in L.
        destruct (_writeTimeout s) as [t|]; [destruct (PrimFloat.ltb t 0)|];
          try discriminate; injection P as <-; split; auto. }
    destruct (IH (set_queue (Queue.push q x) s) w (Queue.push q x) eq_refl M
                ltac:(rewrite qsize_push; simpl Queue.maxsize; lia))
      as (fit & rest' & E & Q' & F').
    exists (x :: fit), rest'. rewrite qsize_push in F'.
    simpl Queue.maxsize in *. simpl Queue.items in Q'.
    rewrite <- app_assoc in Q'. cbn [app length] in *.
    split; [rewrite E; reflexivity|]. split; [exact Q'|]. lia.
Qed.

(** X12: a bounded queue is never overfilled and loses nothing to a write:
    however the write ends (returned, raised, waiting), the queue keeps its
    [maxsize], still holds every item it held, in their order and ahead of
    the new ones, the new ones are the leading bytes of the data, one to an
    item, and there are no more than [maxsize] items in all. *)
Theorem write_keeps_capacity data s w q :
  queue s = Some q ->
  0 < Queue.maxsize q ->
  Queue.qsize q <= Queue.maxsize q ->
  exists fit rest,
    iterbytes data = fit ++ rest /\
    queue (self (write data s w)) =
      Some (Queue.mk (Queue.maxsize q) (Queue.items q ++ fit)) /\
    Queue.qsize q + Z.of_nat (length fit) <= Queue.maxsize q.
Proof.
  intros Q M F.
  destruct (write_self_cases data s w) as [-> | [w' ->]].
  - exists [], (iterbytes data). rewrite app_nil_r. simpl. rewrite Q.
    destruct q; unfold Queue.qsize in *; simpl in *; repeat split; auto; lia.
  - apply (write_each_keeps_capacity (iterbytes data) s w' q Q M F).
Qed.

Lemma write_keeps_capacity_witness :
  exists fit rest,
    iterbytes [Byte.x61; Byte.x62] = fit ++ rest /\
    queue (self (write [Byte.x61; Byte.x62]
                   (small_port 2 None None [PyBytes [Byte.x7a]]) sample_world)) =
      Some (Queue.mk 2 ([PyBytes [Byte.x7a]] ++ fit)) /\
    1 + Z.of_nat (length fit) <= 2.
Proof.
  exact (write_keeps_capacity [Byte.x61; Byte.x62]
           (small_port 2 None None [PyBytes [Byte.x7a]])
           sample_world (Queue.mk 2 [PyBytes [Byte.x7a]]) eq_refl eq_refl
           ltac:(vm_compute; discriminate)).
Defined.

(** ** read(), without time-out *)

Lemma read_untimed_run size s w :
  _isOpen s = true ->
  _timeout s = None ->
  read size s w = read_loop (Z.to_nat size) None [] s w.
Proof.
  intros O T. unfold read. rewrite guarded_open by exact O.
  rewrite (bind_Returns _ _ s w None s w) by (unfold gets; rewrite T; reflexivity).
  rewrite (bind_Returns _ _ s w None s w) by reflexivity.
  reflexivity.
Qed.

(** The loop takes the one-byte units at the head of the queue one by one
    and goes on with what is behind them. *)
Lemma read_loop_units_then units : forall n data rest s w q,
  _isOpen s = true ->
  _timeout s = None ->
  queue s = Some q ->
  Queue.items q = iterbytes units ++ rest ->
  read_loop (length units + n) None data s w =
    read_loop n None (data ++ units)
      (set_queue (Queue.mk (Queue.maxsize q) rest) s) w.
Proof.
  induction units as [|b units IH]; intros n data rest s w q O T Q I.
  - simpl in *. rewrite app_nil_r. f_equal.
    symmetry. apply set_queue_same. rewrite Q, <- I. destruct q; reflexivity.
  - cbn [length Nat.add read_loop].
    rewrite (bind_Returns _ _ s w true s w) by (unfold gets; rewrite O; reflexivity).
    rewrite (read_turn_got _ None data s w q [b] (iterbytes units ++ rest) Q I
               ltac:(rewrite T; exact Logic.I)).
    rewrite (bind_Returns _ _ _ w false _ w) by reflexivity.
    rewrite (IH n (data ++ [b]) rest _ w
               (Queue.mk (Queue.maxsize q) (iterbytes units ++ rest)));
      try reflexivity; auto.
    rewrite <- app_assoc. reflexivity.
Qed.

(** X13: without time-out, a read of n bytes from a queue that starts with
    n one-byte items returns these n bytes, oldest first, and leaves what is
    behind them on the queue, in order. *)
Theorem read_takes_oldest units rest s w q :
  _isOpen s = true ->
  _timeout s = None ->
  queue s = Some q ->
  Queue.items q = iterbytes units ++ rest ->
  read (Z.of_nat (length units)) s w =
    mkResult (Returns units) (set_queue (Queue.mk (Queue.maxsize q) rest) s) w.
Proof.
  intros O T Q I. rewrite (read_untimed_run _ s w O T), Nat2Z.id.
  rewrite <- (Nat.add_0_r (length units)).
  rewrite (read_loop_units_then units 0 [] rest s w q O T Q I). reflexivity.
Qed.

Lemma read_takes_oldest_witness :
  read 1 (open_port None None two_units) sample_world =
    mkResult (Returns [Byte.x61]) (open_port None None [PyBytes [Byte.x62]])
             sample_world.
Proof.
  exact (read_takes_oldest [Byte.x61] [PyBytes [Byte.x62]]
           (open_port None None two_units) sample_world (Queue.mk 4096 two_units)
           eq_refl eq_refl eq_refl eq_refl).
Defined.

(** X14: without time-out, a read of more bytes than are queued takes
    every queued byte off the queue and then waits for ever (as long as no
    other thread writes): it does not return the bytes it has. *)
Theorem read_blocks_when_short units size s w q :
  _isOpen s = true ->
  _timeout s = None ->
  queue s = Some q ->
  Queue.items q = iterbytes units ->
  Z.of_nat (length units) < size ->
  read size s w =
    mkResult Blocks (set_queue (Queue.mk (Queue.maxsize q) []) s) w.
Proof.
  intros O T Q I L. rewrite (read_untimed_run _ s w O T).
  replace (Z.to_nat size) with (length units + S (Z.to_nat size - length units - 1))%nat
    by lia.
  rewrite (read_loop_units_then units _ [] [] s w q O T Q
             ltac:(rewrite app_nil_r; exact I)).
  cbn [read_loop].
  rewrite (bind_Returns _ _ _ w true _ w) by (unfold gets; cbn [_isOpen set_queue]; rewrite O; reflexivity).
  apply (read_turn_blocks _ None _ _ w (Queue.mk (Queue.maxsize q) [])); auto.
Qed.

Lemma read_blocks_when_short_witness :
  read 3 (open_port None None two_units) sample_world =
    mkResult Blocks (open_port None None []) sample_world.
Proof.
  exact (read_blocks_when_short [Byte.x61; Byte.x62] 3
           (open_port None None two_units) sample_world (Queue.mk 4096 two_units)
           eq_refl eq_refl eq_refl eq_refl eq_refl).
Defined.

(** X15: [read] has no case for a None on the queue: a read without
    time-out that reaches a None before it has its bytes raises TypeError;
    the None and the bytes taken before it are gone from the queue and are
    not returned. *)
Theorem read_None_raises_TypeError units rest size s w q :
  _isOpen s = true ->
  _timeout s = None ->
  queue s = Some q ->
  Queue.items q = iterbytes units ++ PyNone :: rest ->
  Z.of_nat (length units) < size ->
  read size s w =
    mkResult (Raises TypeError) (set_queue (Queue.mk (Queue.maxsize q) rest) s) w.
Proof.
  intros O T Q I L. rewrite (read_untimed_run _ s w O T).
  replace (Z.to_nat size) with (length units + S (Z.to_nat size - length units - 1))%nat
    by lia.
  rewrite (read_loop_units_then units _ [] (PyNone :: rest) s w q O T Q I).
  cbn [read_loop].
  rewrite (bind_Returns _ _ _ w true _ w) by (unfold gets; cbn [_isOpen set_queue]; rewrite O; reflexivity).
  unfold read_turn, queue_get, bytearray_iadd. run_port.
  cbn [_timeout queue set_queue]. rewrite T. reflexivity.
Qed.

Lemma read_None_raises_TypeError_witness :
  read 2 (open_port None None [PyBytes [Byte.x61]; PyNone; PyBytes [Byte.x62]])
       sample_world =
    mkResult (Raises TypeError) (open_port None None [PyBytes [Byte.x62]]) sample_world.
Proof.
  exact (read_None_raises_TypeError [Byte.x61] [PyBytes [Byte.x62]] 2
           (open_port None None [PyBytes [Byte.x61]; PyNone; PyBytes [Byte.x62]])
           sample_world
           (Queue.mk 4096 [PyBytes [Byte.x61]; PyNone; PyBytes [Byte.x62]])
           eq_refl eq_refl eq_refl eq_refl eq_refl).
Defined.

(** ** read(), in general *)

Lemma queued_bytes_split k items :
  queued_bytes (firstn k items) ++ queued_bytes (skipn k items) = queued_bytes items.
Proof.
  unfold queued_bytes. rewrite <- flat_map_app, firstn_skipn. reflexivity.
Qed.

(** [read] up to its loop. *)
Lemma read_reaches_loop size s w :
  _isOpen s = true ->
  exists timeout w0, (clock w0 = clock w /\ trace w0 = trace w) /\
    read size s w = read_loop (Z.to_nat size) timeout [] s w0.
Proof.
  intros O. unfold read. rewrite guarded_open by exact O.
  rewrite (bind_Returns _ _ s w (_timeout s) s w) by reflexivity.
  destruct (_timeout s) as [t|].
  - exists (Some (PrimFloat.add (clock w (ticks w)) t)), (tick w).
    split; [split; reflexivity | reflexivity].
  - exists None, w. split; [split; reflexivity | reflexivity].
Qed.

(** X16: a read that returns loses no byte and changes no order: on a queue
    of bytes objects, the bytes returned followed by the bytes left on the
    queue are the bytes that were queued. *)
Theorem read_conserves_bytes size s w q data :
  _isOpen s = true ->
  queue s = Some q ->
  forallb is_bytes (Queue.items q) = true ->
  timeout_ok (_timeout s) ->
  outcome (read size s w) = Returns data ->
  exists q', queue (self (read size s w)) = Some q' /\
             Queue.maxsize q' = Queue.maxsize q /\
             data ++ queued_bytes (Queue.items q') = queued_bytes (Queue.items q).
Proof.
  intros O Q F T.
  destruct (read_reaches_loop size s w O) as (timeout & w0 & _ & ->).
  pose proof (read_loop_short (Z.to_nat size) timeout [] s w0 q Q F T) as L.
  destruct (outcome (read_loop (Z.to_nat size) timeout [] s w0)); try discriminate.
  intros [= ->]. destruct L as (k & _ & -> & ->).
  eexists. split; [reflexivity|]. split; [reflexivity|].
  cbn [Queue.items app]. apply queued_bytes_split.
Qed.

Lemma read_conserves_bytes_witness :
  outcome (read 1 (open_port (Some 0%float) None two_units) sample_world) =
    Returns [Byte.x61] /\
  exists q', queue (self (read 1 (open_port (Some 0%float) None two_units) sample_world))
               = Some q' /\
             Queue.maxsize q' = 4096 /\
             [Byte.x61] ++ queued_bytes (Queue.items q') = queued_bytes two_units.
Proof.
  assert (E : outcome (read 1 (open_port (Some 0%float) None two_units) sample_world) =
                Returns [Byte.x61]) by (vm_compute; reflexivity).
  split; [exact E|].
  exact (read_conserves_bytes 1 (open_port (Some 0%float) None two_units) sample_world
           (Queue.mk 4096 two_units) [Byte.x61] eq_refl eq_refl eq_refl eq_refl E).
Defined.

(** ** read(), with a time-out *)

Lemma read_timed_run size s w t :
  _isOpen s = true ->
  _timeout s = Some t ->
  read size s w =
    read_loop (Z.to_nat size) (Some (PrimFloat.add (clock w (ticks w)) t)) [] s (tick w).
Proof.
  intros O T. unfold read. rewrite guarded_open by exact O.
  rewrite (bind_Returns _ _ s w (Some t) s w) by (unfold gets; rewrite T; reflexivity).
  rewrite (bind_Returns _ _ s w (Some (PrimFloat.add (clock w (ticks w)) t)) s (tick w))
    by reflexivity.
  reflexivity.
Qed.

(** X17: the deadline is looked at after each byte taken: once the clock is
    past the time of the call plus the time-out, the read returns with the
    one byte it has just taken, however many were asked for and are queued.
    (With a time-out of 0 every later clock reading is past it.) *)
Theorem read_stops_at_deadline size s w q t b rest :
  _isOpen s = true ->
  _timeout s = Some t ->
  PrimFloat.ltb t 0 = false ->
  queue s = Some q ->
  Queue.items q = PyBytes b :: rest ->
  1 <= size ->
  float_truthy (PrimFloat.add (clock w (ticks w)) t) = true ->
  PrimFloat.ltb (PrimFloat.add (clock w (ticks w)) t) (clock w (S (ticks w))) = true ->
  read size s w =
    mkResult (Returns b) (set_queue (Queue.mk (Queue.maxsize q) rest) s) (tick (tick w)).
Proof.
  intros O T N Q I L Tr Late.
  rewrite (read_timed_run size s w t O T).
  destruct (Z.to_nat size) as [|n] eqn:E; [lia|].
  cbn [read_loop].
  rewrite (bind_Returns _ _ s (tick w) true s (tick w))
    by (unfold gets; rewrite O; reflexivity).
  rewrite (read_turn_got _ _ [] s (tick w) q b rest Q I ltac:(rewrite T; exact N)).
  unfold deadline_passed. rewrite Tr.
  cbv [bind time_time ret outcome self world].
  cbn [clock ticks tick]. rewrite Late. reflexivity.
Qed.

Lemma read_stops_at_deadline_witness :
  read 2 (open_port (Some 0%float) None two_units) running_world =
    mkResult (Returns [Byte.x61]) (open_port (Some 0%float) None [PyBytes [Byte.x62]])
             (tick (tick running_world)).
Proof.
  assert (Tr : float_truthy
                 (PrimFloat.add (clock running_world (ticks running_world)) 0) = true)
    by (vm_compute; reflexivity).
  assert (Late : PrimFloat.ltb
                   (PrimFloat.add (clock running_world (ticks running_world)) 0)
                   (clock running_world (S (ticks running_world))) = true)
    by (vm_compute; reflexivity).
  assert (L : 1 <= 2) by lia.
  exact (read_stops_at_deadline 2 (open_port (Some 0%float) None two_units)
           running_world (Queue.mk 4096 two_units) 0%float [Byte.x61]
           [PyBytes [Byte.x62]] eq_refl eq_refl eq_refl eq_refl eq_refl L Tr Late).
Defined.




(** ** Operations one after the other *)

(** X19: on an open port without time-outs whose queue holds the bytes
    [old], one to an item, and has room for [d]: [write(d)] returns len(d),
    a read of k bytes (k no more than are queued then) returns the first k
    bytes of [old + d], and [in_waiting] then counts the bytes that are
    left. *)
Theorem write_read_in_waiting old d k s w q lg :
  _isOpen s = true ->
  _timeout s = None ->
  _writeTimeout s = None ->
  0 < _baudrate s < 2 ^ 32 ->
  logger s = Some lg ->
  queue s = Some q ->
  Queue.items q = iterbytes old ->
  Queue.maxsize q <= 0 \/ Queue.qsize q + Z.of_nat (length d) <= Queue.maxsize q ->
  (k <= length old + length d)%nat ->
  outcome ((n <- write d ;; data <- read (Z.of_nat k) ;; left <- in_waiting ;;
            ret (n, data, left)) s w) =
    Returns (Z.of_nat (length d), firstn k (old ++ d),
             Z.of_nat (length old + length d - k)).
Proof.
  intros O T WT B L Q I R K.
  rewrite (bind_Returns _ _ s w _ _ _ (write_run d s w q O ltac:(lia) WT Q R)).
  rewrite I, <- iterbytes_app.
  set (s1 := set_queue (Queue.mk (Queue.maxsize q) (iterbytes (old ++ d))) s).
  assert (Len : length (firstn k (old ++ d)) = k)
    by (apply firstn_length_le; rewrite length_app; exact K).
  assert (Split : iterbytes (old ++ d) =
                  iterbytes (firstn k (old ++ d)) ++ iterbytes (skipn k (old ++ d)))
    by (rewrite <- iterbytes_app, firstn_skipn; reflexivity).
  pose proof (read_run (firstn k (old ++ d)) s1 w
                (Queue.mk (Queue.maxsize q) (iterbytes (old ++ d)))
                (iterbytes (skipn k (old ++ d))) O T eq_refl Split) as Rd.
  rewrite Len in Rd.
  rewrite (bind_Returns _ _ s1 w _ _ _ Rd).
  cbn [Queue.maxsize].
  set (s2 := set_queue (Queue.mk (Queue.maxsize q) (iterbytes (skipn k (old ++ d)))) s1).
  destruct (in_waiting_run s2 w
              (Queue.mk (Queue.maxsize q) (iterbytes (skipn k (old ++ d)))) lg
              O L eq_refl) as [Hout _].
  unfold bind at 1. rewrite Hout. cbv [ret outcome].
  unfold Queue.qsize. cbn [Queue.items].
  rewrite iterbytes_length, length_skipn, length_app. reflexivity.
Qed.

Lemma write_read_in_waiting_witness :
  outcome ((n <- write [Byte.x62; Byte.x63] ;; data <- read 2 ;; left <- in_waiting ;;
            ret (n, data, left)) (open_port None None [PyBytes [Byte.x61]])
             sample_world) =
    Returns (2, [Byte.x61; Byte.x62], 1).
Proof.
  assert (R : Queue.maxsize (Queue.mk 4096 [PyBytes [Byte.x61]]) <= 0 \/
              Queue.qsize (Queue.mk 4096 [PyBytes [Byte.x61]]) +
              Z.of_nat (length [Byte.x62; Byte.x63]) <=
              Queue.maxsize (Queue.mk 4096 [PyBytes [Byte.x61]]))
    by (right; vm_compute; discriminate).
  assert (B : 0 < _baudrate (open_port None None [PyBytes [Byte.x61]]) < 2 ^ 32)
    by (split; reflexivity).
  assert (K : (2 <= length [Byte.x61] + length [Byte.x62; Byte.x63])%nat)
    by (simpl; lia).
  exact (write_read_in_waiting [Byte.x61] [Byte.x62; Byte.x63] 2
           (open_port None None [PyBytes [Byte.x61]]) sample_world
           (Queue.mk 4096 [PyBytes [Byte.x61]]) None
           eq_refl eq_refl eq_refl B eq_refl eq_refl eq_refl R K).
Defined.

(** X20: a buffer reset discards what was written and not yet read:
    after [write(d)] and either reset, [in_waiting] is 0 and the queue is
    empty, whatever it held before. *)
Theorem reset_discards_written d s w q lg :
  _isOpen s = true ->
  0 < _baudrate s < 2 ^ 32 ->
  write_in_time (_writeTimeout s) d (_baudrate s) ->
  logger s = Some lg ->
  queue s = Some q ->
  Queue.maxsize q <= 0 \/ Queue.qsize q + Z.of_nat (length d) <= Queue.maxsize q ->
  outcome ((write d ;; reset_input_buffer ;; in_waiting) s w) = Returns 0 /\
  outcome ((write d ;; reset_output_buffer ;; in_waiting) s w) = Returns 0 /\
  self ((write d ;; reset_input_buffer ;; in_waiting) s w) =
    set_queue (Queue.mk (Queue.maxsize q) []) s /\
  self ((write d ;; reset_output_buffer ;; in_waiting) s w) =
    set_queue (Queue.mk (Queue.maxsize q) []) s.
Proof.
  intros O B T L Q R.
  assert (W : write d s w =
              mkResult (Returns (Z.of_nat (length d)))
                (set_queue (Queue.mk (Queue.maxsize q) (Queue.items q ++ iterbytes d)) s) w).
  { rewrite (write_reaches_loop d s w O ltac:(lia) T).
    rewrite (bind_Returns _ _ s w tt _ _
               (write_each_fits d s w q Q (write_in_time_ok _ _ _ T) R)).
    reflexivity. }
  rewrite !(bind_Returns _ _ s w _ _ _ W).
  set (q1 := Queue.mk (Queue.maxsize q) (Queue.items q ++ iterbytes d)).
  set (s1 := set_queue q1 s).
  rewrite (bind_Returns _ _ s1 w tt _ _ (reset_input_buffer_run s1 w q1 lg O eq_refl L)).
  rewrite (bind_Returns _ _ s1 w tt _ _ (reset_output_buffer_run s1 w q1 lg O eq_refl L)).
  cbn [Queue.maxsize q1].
  set (s2 := set_queue (Queue.mk (Queue.maxsize q) []) s1).
  assert (I : forall w', outcome (in_waiting s2 w') = Returns 0 /\
                         self (in_waiting s2 w') = s2).
  { intros w'. apply (in_waiting_run s2 w' (Queue.mk (Queue.maxsize q) []) lg O L eq_refl). }
  repeat split; apply I.
Qed.

Lemma reset_discards_written_witness :
  outcome ((write [Byte.x62] ;; reset_input_buffer ;; in_waiting)
             (open_port None None [PyBytes [Byte.x61]]) sample_world) = Returns 0.
Proof.
  assert (R : Queue.maxsize (Queue.mk 4096 [PyBytes [Byte.x61]]) <= 0 \/
              Queue.qsize (Queue.mk 4096 [PyBytes [Byte.x61]]) +
              Z.of_nat (length [Byte.x62]) <=
              Queue.maxsize (Queue.mk 4096 [PyBytes [Byte.x61]]))
    by (right; vm_compute; discriminate).
  assert (B : 0 < _baudrate (open_port None None [PyBytes [Byte.x61]]) < 2 ^ 32)
    by (split; reflexivity).
  exact (proj1 (reset_discards_written [Byte.x62]
                  (open_port None None [PyBytes [Byte.x61]]) sample_world
                  (Queue.mk 4096 [PyBytes [Byte.x61]]) None
                  eq_refl B Logic.I eq_refl eq_refl R)).
Defined.

(** ** Logging *)


(** ** Baud rates *)

Lemma BAUDRATES_in_range b : In b BAUDRATES -> 0 < b < 2 ^ 32.
Proof.
  unfold BAUDRATES. simpl.
  intros H. repeat (destruct H as [<- | H]; [split; reflexivity|]). contradiction.
Qed.

(** X22: [_reconfigurePort] accepts exactly the baud rates with
    0 < baudrate < 2**32, among them every rate of [BAUDRATES]; it raises
    ValueError for any other and never changes the port. *)
Theorem reconfigurePort_accepts s w lg :
  logger s = Some lg ->
  (outcome (_reconfigurePort s w) = Returns tt <-> 0 < _baudrate s < 2 ^ 32) /\
  (outcome (_reconfigurePort s w) = Raises (ValueError (invalid_baudrate (_baudrate s)))
     <-> ~ 0 < _baudrate s < 2 ^ 32) /\
  (In (_baudrate s) BAUDRATES -> outcome (_reconfigurePort s w) = Returns tt) /\
  self (_reconfigurePort s w) = s.
Proof.
  intros L. rewrite (reconfigurePort_run s w lg L).
  assert (Iff : (0 <? _baudrate s) && (_baudrate s <? 2 ^ 32) = true <->
                0 < _baudrate s < 2 ^ 32).
  { rewrite andb_true_iff, !Z.ltb_lt. reflexivity. }
  destruct ((0 <? _baudrate s) && (_baudrate s <? 2 ^ 32)) eqn:B; cbn [outcome self].
  - assert (In_range : 0 < _baudrate s < 2 ^ 32) by (apply Iff; reflexivity).
    split; [split; auto|]. split; [split; [discriminate | intros N; contradiction]|].
    split; auto.
  - assert (Out : ~ 0 < _baudrate s < 2 ^ 32)
      by (intros H; apply Iff in H; discriminate).
    split; [split; [discriminate | intros H; contradiction]|].
    split; [split; auto|]. split; [|reflexivity].
    intros I. apply BAUDRATES_in_range in I. contradiction.
Qed.

Lemma reconfigurePort_accepts_witness :
  logger (open_port None None []) = Some None /\
  In (_baudrate (open_port None None [])) BAUDRATES /\
  outcome (_reconfigurePort (open_port None None []) sample_world) = Returns tt.
Proof.
  assert (I : In (_baudrate (open_port None None [])) BAUDRATES)
    by (simpl; auto 20).
  pose proof (reconfigurePort_accepts (open_port None None []) sample_world None eq_refl)
    as (_ & _ & H & _).
  split; [reflexivity|]. split; [exact I | exact (H I)].
Defined.
